(** * SkeldJS pathfinder: the movement controller, embedded and verified

    Shallow embedding of [packages/pathfinding/ts/lib/Pathfinder.ts]
    (class [SkeldjsPathfinder]): its fields, its tick handler [_ontick] and
    its public operations, with the properties the specification states
    about them.

    Modelling conventions.
    - A JavaScript number is an IEEE-754 double: [number] is Rocq's
      primitive [float], and [ToBoolean] is JavaScript's truthiness of a
      number (false on [0], [-0] and [NaN]).  The tick counter and the
      recalculation period only ever hold integers and are kept in [Z]; the
      rounding of [_tick++] at [2^53] is written out in [increment].
    - [null] and [undefined] are both [None]: the class only ever tests its
      optional fields for truthiness.
    - The handler is [async]; every handler is run to completion before the
      next one starts, and listeners called by [emit] do not call back into
      the pathfinder.  A listener sees the pathfinder as it is when the
      event is emitted: an emission is logged with that state.
    - An exception (for an [async] method: a rejected promise) is the
      completion [Throw]; the fields written before it keep their values. *)

From Stdlib Require Import ZArith List Bool Lia.
From Stdlib Require Import Floats.PrimFloat.
Import ListNotations.

Set Implicit Arguments.
Local Open Scope Z_scope.

(** ** Numbers *)

Definition number : Type := float.

(** [ToBoolean] of a number: [if (vec.x)]. *)
Definition ToBoolean (v : number) : bool :=
  negb (PrimFloat.eqb v 0%float) && PrimFloat.eqb v v.

(** [ToBoolean] of a property that may be missing ([undefined] is falsy). *)
Definition ToBoolean_opt (v : option number) : bool :=
  match v with
  | Some n => ToBoolean n
  | None => false
  end.

(** [_tick++] on a double holding a non-negative integer: exact below
    [2^53], where [t + 1] rounds back to [t]. *)
Definition increment (t : Z) : Z :=
  if t <? 2 ^ 53 then t + 1 else t.

(** JavaScript's [%] truncates towards zero, like [Z.rem]. *)
Definition js_mod (a b : Z) : Z := Z.rem a b.

(** ** Data *)

Module Vector2.
Record t : Type := mk { x : number; y : number }.
Arguments mk (x y)%_float.
End Vector2.

(** A grid node ([./util/Node]): the pathfinder reads its grid coordinates
    only. *)
Module Node.
Record t : Type := mk { x : number; y : number }.
Arguments mk (x y)%_float.
End Node.

Record CustomNetworkTransform : Type :=
  { position : option Vector2.t }.

(** [PlayerData]: an object, identified by [id] for [===]. *)
Record PlayerData : Type :=
  { id : Z;
    spawned : bool;
    transform : option CustomNetworkTransform }.

Definition same_player (a b : PlayerData) : bool := id a =? id b.

Inductive PlayerDataResolvable : Type :=
| by_clientid (n : Z)
| by_player (p : PlayerData).

(** What [go] is called with: [PlayerDataResolvable | Vector2 | Node]. *)
Inductive GoArg : Type :=
| arg_resolvable (r : PlayerDataResolvable)
| arg_vector (v : Vector2.t)
| arg_node (n : Node.t).

(** [(pos as Vector2).x] and [.y]: a player or a client id has neither. *)
Definition arg_x (pos : GoArg) : option number :=
  match pos with
  | arg_vector v => Some (Vector2.x v)
  | arg_node n => Some (Node.x n)
  | arg_resolvable _ => None
  end.

Definition arg_y (pos : GoArg) : option number :=
  match pos with
  | arg_vector v => Some (Vector2.y v)
  | arg_node n => Some (Node.y n)
  | arg_resolvable _ => None
  end.

(** The events of [SkeldjsPathfinderEvents] with their data. *)
Inductive Event : Type :=
| pathfinding_start (destination : option Vector2.t)
| pathfinding_stop (reached : bool)
| pathfinding_end
| pathfinding_pause
| engine_move (position : Vector2.t)
| engine_recalculate (path : list Vector2.t).

(** ** The collaborators the class imports

    [./util/Grid], [./engine], [Math.hypot] and [MapVentData] of
    [@skeldjs/core] are parameters of the development.  [None] from
    [Grid_fromBuffer] is a load that throws; [getShortestPath] may write the
    nodes' search marks, so it returns the grid as well; [MapVentData] is
    [None] where the table has no entry. *)
Class Externals : Type :=
  { Grid : Type;
    Buffer : Type;
    Grid_fromBuffer : Buffer -> option Grid;
    Grid_nearest : Grid -> number -> number -> option Node.t;
    Grid_actual : Grid -> number -> number -> Vector2.t;
    Grid_reset : Grid -> Grid;
    getShortestPath :
      Grid -> option Node.t -> option Node.t -> list Node.t * Grid;
    Math_hypot : number -> number -> number;
    MapVentData : Z -> Z -> option Vector2.t }.

(** How a handler ends: it returns, or an exception leaves it. *)
Inductive Completion (A : Type) : Type :=
| Normal (a : A)
| Throw.

Arguments Throw {A}.

Section Pathfinder.

Context {ext : Externals}.

(** ** The fields of [SkeldjsPathfinder] *)

Record SkeldjsPathfinder : Type :=
  { _tick : Z;
    _moved : bool;
    _paused : bool;
    destination : option Vector2.t;
    grid : option Grid;
    path : option (list Node.t);
    following : option PlayerData;
    recalculateEvery : option Z   (* config.recalculateEvery *) }.

Definition set_tick (v : Z) (s : SkeldjsPathfinder) : SkeldjsPathfinder :=
  {| _tick := v; _moved := _moved s; _paused := _paused s;
     destination := destination s; grid := grid s; path := path s;
     following := following s; recalculateEvery := recalculateEvery s |}.

Definition set_moved (v : bool) (s : SkeldjsPathfinder) : SkeldjsPathfinder :=
  {| _tick := _tick s; _moved := v; _paused := _paused s;
     destination := destination s; grid := grid s; path := path s;
     following := following s; recalculateEvery := recalculateEvery s |}.

Definition set_paused (v : bool) (s : SkeldjsPathfinder) : SkeldjsPathfinder :=
  {| _tick := _tick s; _moved := _moved s; _paused := v;
     destination := destination s; grid := grid s; path := path s;
     following := following s; recalculateEvery := recalculateEvery s |}.

Definition set_destination (v : option Vector2.t) (s : SkeldjsPathfinder)
  : SkeldjsPathfinder :=
  {| _tick := _tick s; _moved := _moved s; _paused := _paused s;
     destination := v; grid := grid s; path := path s;
     following := following s; recalculateEvery := recalculateEvery s |}.

Definition set_grid (v : option Grid) (s : SkeldjsPathfinder)
  : SkeldjsPathfinder :=
  {| _tick := _tick s; _moved := _moved s; _paused := _paused s;
     destination := destination s; grid := v; path := path s;
     following := following s; recalculateEvery := recalculateEvery s |}.

Definition set_path (v : option (list Node.t)) (s : SkeldjsPathfinder)
  : SkeldjsPathfinder :=
  {| _tick := _tick s; _moved := _moved s; _paused := _paused s;
     destination := destination s; grid := grid s; path := v;
     following := following s; recalculateEvery := recalculateEvery s |}.

Definition set_following (v : option PlayerData) (s : SkeldjsPathfinder)
  : SkeldjsPathfinder :=
  {| _tick := _tick s; _moved := _moved s; _paused := _paused s;
     destination := destination s; grid := grid s; path := path s;
     following := v; recalculateEvery := recalculateEvery s |}.

(** The constructor: [_tick = 0], the configuration, nothing else set. *)
Definition new_SkeldjsPathfinder (config : option Z) : SkeldjsPathfinder :=
  {| _tick := 0; _moved := false; _paused := false;
     destination := None; grid := None; path := None;
     following := None; recalculateEvery := config |}.

(** ** The client the pathfinder is attached to *)

Record Room : Type :=
  { me : option PlayerData;
    map : option Z;                                  (* settings?.map *)
    resolvePlayer : GoArg -> option PlayerData }.

Record Hostable : Type :=
  { room : option Room;
    playerSpeed : number                         (* settings.playerSpeed *) }.

(** The world a handler runs in: the client, the files under
    [data/build] ([None]: [fs.readFileSync] throws) and the listeners'
    verdict on a cancelable event (what [await this.emit(...)] yields). *)
Record Env : Type :=
  { client : Hostable;
    readFileSync : Z -> option Buffer;
    listeners : Event -> bool }.

(** ** Effects and the handler monad *)

(** What a handler does to its collaborators, in program order.  [Emit]
    carries the pathfinder as the listeners find it. *)
Inductive Effect : Type :=
| Emit (e : Event) (seen : SkeldjsPathfinder)
| Call_reset
| Call_getShortestPath (s d : option Node.t)
| Call_move (pos velocity : Vector2.t).

Record Outcome (A : Type) : Type :=
  { completion : Completion A;
    final : SkeldjsPathfinder;
    effects : list Effect }.

Definition M (A : Type) : Type := SkeldjsPathfinder -> Outcome A.

Definition ret {A : Type} (a : A) : M A :=
  fun s => {| completion := Normal a; final := s; effects := [] |}.

Definition bind {A B : Type} (m : M A) (k : A -> M B) : M B :=
  fun s =>
    match m s with
    | {| completion := Normal a; final := s1; effects := tr1 |} =>
        match k a s1 with
        | {| completion := c; final := s2; effects := tr2 |} =>
            {| completion := c; final := s2; effects := tr1 ++ tr2 |}
        end
    | {| completion := Throw; final := s1; effects := tr1 |} =>
        {| completion := Throw; final := s1; effects := tr1 |}
    end.

Definition throw {A : Type} : M A :=
  fun s => {| completion := Throw; final := s; effects := [] |}.

Definition gets {A : Type} (f : SkeldjsPathfinder -> A) : M A :=
  fun s => {| completion := Normal (f s); final := s; effects := [] |}.

Definition modify (f : SkeldjsPathfinder -> SkeldjsPathfinder) : M unit :=
  fun s => {| completion := Normal tt; final := f s; effects := [] |}.

Definition perform (e : Effect) : M unit :=
  fun s => {| completion := Normal tt; final := s; effects := [e] |}.

End Pathfinder.

Declare Scope handler_scope.
Delimit Scope handler_scope with handler.
Notation "x <- m ;; k" := (bind m (fun x => k))
  (at level 61, m at next level, right associativity) : handler_scope.
Notation "m ;; k" := (bind m (fun _ => k))
  (at level 61, right associativity) : handler_scope.

Local Open Scope handler_scope.

Section Handlers.

Context {ext : Externals}.

(** [None] where the source throws: a failed call, or a property read off
    [undefined] ([TypeError]). *)
Definition or_throw {A : Type} (v : option A) : M A :=
  match v with
  | Some a => ret a
  | None => throw
  end.

(** [this.emit(name, data)]: the listeners run, and the promise resolves to
    whether they let the event through. *)
Definition emit (env : Env) (e : Event) : M bool :=
  fun s =>
    {| completion := Normal (listeners env e); final := s;
       effects := [Emit e s] |}.

(** ** The getters (lines 114-148) *)

Definition get_room (env : Env) : option Room := room (client env).

Definition get_me (env : Env) : option PlayerData :=
  match get_room env with
  | Some r => me r
  | None => None
  end.

Definition get_transform (env : Env) : option CustomNetworkTransform :=
  match get_me env with
  | Some p => transform p
  | None => None
  end.

Definition get_position (env : Env) : option Vector2.t :=
  match get_transform env with
  | Some tr => position tr
  | None => None
  end.

Definition get_map (env : Env) : option Z :=
  match get_room env with
  | Some r => map r
  | None => None
  end.

Definition the_grid : M Grid := g <- gets grid ;; or_throw g.

Definition snode (env : Env) : M (option Node.t) :=
  match get_position env with
  | None => ret None
  | Some p => g <- the_grid ;; ret (Grid_nearest g (Vector2.x p) (Vector2.y p))
  end.

Definition dnode : M (option Node.t) :=
  d <- gets destination ;;
  match d with
  | None => ret None
  | Some p => g <- the_grid ;; ret (Grid_nearest g (Vector2.x p) (Vector2.y p))
  end.

(** ** The static [MovementInterval] (line 306) *)

Definition MovementInterval : Z := 6.

(** ** [recalculate] (lines 201-207) *)

Definition actual_of (g : Grid) (n : Node.t) : Vector2.t :=
  Grid_actual g (Node.x n) (Node.y n).

Definition recalculate (env : Env) : M unit :=
  g <- the_grid ;;
  modify (set_grid (Some (Grid_reset g))) ;;
  perform Call_reset ;;
  g1 <- the_grid ;;
  s <- snode env ;;
  d <- dnode ;;
  perform (Call_getShortestPath s d) ;;
  modify (set_grid (Some (snd (getShortestPath g1 s d)))) ;;
  modify (set_path (Some (fst (getShortestPath g1 s d)))) ;;
  p <- (p <- gets path ;; or_throw p) ;;
  g2 <- the_grid ;;
  emit env (engine_recalculate (List.map (actual_of g2) p)) ;;
  ret tt.

(** ** [pause], [start], [_stop], [stop] (lines 209-233) *)

Definition pause (env : Env) : M unit :=
  modify (set_paused true) ;;
  emit env pathfinding_pause ;;
  ret tt.

Definition start (env : Env) : M unit :=
  modify (set_paused false) ;;
  d <- gets destination ;;
  emit env (pathfinding_start d) ;;
  ret tt.

Definition _stop (env : Env) (reached : bool) : M unit :=
  modify (set_destination None) ;;
  (if negb reached then modify (set_moved true) else ret tt) ;;
  emit env (pathfinding_stop reached) ;;
  if reached then emit env pathfinding_end ;; ret tt else ret tt.

Definition stop (env : Env) : M unit := _stop env false.

(** ** [_ontick] (lines 150-199) *)

(** Lines 157-162: the grid of the current map is read on first use. *)
Definition load_grid (env : Env) (m : Z) : M unit :=
  g <- gets grid ;;
  match g with
  | Some _ => ret tt
  | None =>
      buff <- or_throw (readFileSync env m) ;;
      loaded <- or_throw (Grid_fromBuffer buff) ;;
      modify (set_grid (Some loaded))
  end.

(** [this.config.recalculateEvery || 1] *)
Definition period (every : option Z) : Z :=
  match every with
  | Some n => if n =? 0 then 1 else n
  | None => 1
  end.

(** The condition of lines 166-170. *)
Definition recalculation_due (s : SkeldjsPathfinder) : bool :=
  _moved s
  || match path s with Some _ => false | None => true end
  || (js_mod (_tick s) (period (recalculateEvery s)) =? 0).

(** Lines 166-173. *)
Definition recalculation (env : Env) : M unit :=
  due <- gets recalculation_due ;;
  if due then recalculate env ;; modify (set_moved false) else ret tt.

(** Lines 175-198. *)
Definition consumption (env : Env) : M unit :=
  paused <- gets _paused ;;
  if paused then ret tt
  else
    p <- (p <- gets path ;; or_throw p) ;;
    match p with
    | next :: rest =>
        modify (set_path (Some rest)) ;;
        g <- the_grid ;;
        let pos := actual_of g next in
        here <- or_throw (get_position env) ;;
        let dist :=
          Math_hypot (PrimFloat.sub (Vector2.x here) (Vector2.x pos))
                     (PrimFloat.sub (Vector2.y here) (Vector2.y pos)) in
        accepted <- emit env (engine_move pos) ;;
        (if accepted
         then
           _ <- or_throw (get_transform env) ;;
           perform
             (Call_move pos
                (Vector2.mk (PrimFloat.mul dist (playerSpeed (client env)))
                            (PrimFloat.mul dist (playerSpeed (client env)))))
         else ret tt) ;;
        left <- (p' <- gets path ;; or_throw p') ;;
        (match left with
         | [] => _stop env true
         | _ :: _ => ret tt
         end)
    | [] =>
        modify (set_destination None) ;;
        modify (set_path None)
    end.

(** Lines 151-164: the counter, the cadence gate, the map, the grid and
    the two cells.  [false] where the handler returns early. *)
Definition guards (env : Env) : M bool :=
  modify (fun s => set_tick (increment (_tick s)) s) ;;
  t <- gets _tick ;;
  if negb (js_mod t MovementInterval =? 0) then ret false
  else
    match get_map env with
    | None => ret false
    | Some m =>
        load_grid env m ;;
        sn <- snode env ;;
        match sn with
        | None => ret false
        | Some _ =>
            dn <- dnode ;;
            match dn with
            | None => ret false
            | Some _ => ret true
            end
        end
    end.

Definition _ontick (env : Env) : M unit :=
  act <- guards env ;;
  if act then recalculation env ;; consumption env else ret tt.

(** ** [_go], [go], [vent] (lines 235-274) *)

Definition _go (env : Env) (dest : Vector2.t) : M unit :=
  modify (set_destination
            (Some (Vector2.mk (Vector2.x dest) (Vector2.y dest)))) ;;
  modify (set_moved true) ;;
  start env.

(** [this.client?.room?.resolvePlayer(pos)] *)
Definition resolve (env : Env) (pos : GoArg) : option PlayerData :=
  match get_room env with
  | Some r => resolvePlayer r pos
  | None => None
  end.

(** [go] calls itself on the resolved player's position; [depth] is the
    call stack that is left ([RangeError] when it runs out). *)
Fixpoint go (depth : nat) (env : Env) (pos : GoArg)
  : M (option Vector2.t) :=
  match depth with
  | O => throw
  | S depth' =>
      if ToBoolean_opt (arg_x pos)
      then
        match arg_x pos, arg_y pos with
        | Some vx, Some vy => _go env (Vector2.mk vx vy) ;; ret None
        | _, _ => throw
        end
      else
        match pos with
        | arg_node n => g <- the_grid ;; ret (Some (actual_of g n))
        | _ =>
            match resolve env pos with
            | Some resolved =>
                if spawned resolved
                then
                  tr <- or_throw (transform resolved) ;;
                  position <- or_throw (position tr) ;;
                  go depth' env (arg_vector position)
                else ret None
            | None => ret None
            end
        end
  end.

Definition vent (depth : nat) (env : Env) (ventid : Z) : M unit :=
  match get_map env with
  | None => ret tt
  | Some m =>
      if m =? 0 then ret tt
      else
        coords <- or_throw (MapVentData m ventid) ;;
        go depth env (arg_vector coords) ;;
        ret tt
  end.

(** ** [_handleMove], [_handleLeave], [follow] (lines 276-304) *)

Definition is_following (s : SkeldjsPathfinder) (p : PlayerData) : bool :=
  match following s with
  | Some f => same_player p f
  | None => false
  end.

Definition _handleMove (owner : PlayerData) (position : Vector2.t) : M unit :=
  yes <- gets (fun s => is_following s owner) ;;
  if yes
  then
    modify (set_destination
              (Some (Vector2.mk (Vector2.x position) (Vector2.y position)))) ;;
    modify (set_moved true)
  else ret tt.

Definition _handleLeave (env : Env) (player : PlayerData) : M unit :=
  yes <- gets (fun s => is_following s player) ;;
  if yes
  then _stop env false ;; modify (set_following None)
  else ret tt.

Definition follow (env : Env) (player : PlayerDataResolvable) : M unit :=
  match resolve env (arg_resolvable player) with
  | Some resolved =>
      if spawned resolved then modify (set_following (Some resolved))
      else ret tt
  | None => ret tt
  end.

End Handlers.

(** ** Reading a run *)

Section Runs.

Context {ext : Externals}.

(** The events a run emitted, in order. *)
Definition emitted (tr : list Effect) : list Event :=
  flat_map (fun e => match e with Emit ev _ => [ev] | _ => [] end) tr.

(** The [transform.move] calls of a run. *)
Definition movements (tr : list Effect) : list (Vector2.t * Vector2.t) :=
  flat_map (fun e => match e with Call_move p v => [(p, v)] | _ => [] end) tr.

Definition is_stop_or_end (ev : Event) : bool :=
  match ev with
  | pathfinding_stop _ => true
  | pathfinding_end => true
  | _ => false
  end.

Definition is_move (ev : Event) : bool :=
  match ev with
  | engine_move _ => true
  | _ => false
  end.

(** The pathfinder when the handler is past its guards (line 166), and when
    it is past the recalculation step (line 175). *)
Definition at_recalculation (env : Env) (s : SkeldjsPathfinder)
  : SkeldjsPathfinder :=
  final (guards env s).

Definition at_consumption (env : Env) (s : SkeldjsPathfinder)
  : SkeldjsPathfinder :=
  final (recalculation env (at_recalculation env s)).

(** [grid.nearest] of a position that may be missing: what [snode] and
    [dnode] return on a loaded grid [g]. *)
Definition nearest_cell (g : Grid) (v : option Vector2.t) : option Node.t :=
  match v with
  | Some p => Grid_nearest g (Vector2.x p) (Vector2.y p)
  | None => None
  end.

(** What the search of a recalculation returns when the grid is [g]: the
    grid is reset, the two cells are looked up, the search runs. *)
Definition search (env : Env) (g : Grid) (s : SkeldjsPathfinder)
  : list Node.t * Grid :=
  getShortestPath (Grid_reset g)
    (nearest_cell (Grid_reset g) (get_position env))
    (nearest_cell (Grid_reset g) (destination s)).

(** The pathfinder once [recalculate] has stored that result. *)
Definition recalculated (env : Env) (g : Grid) (s : SkeldjsPathfinder)
  : SkeldjsPathfinder :=
  set_path (Some (fst (search env g s)))
           (set_grid (Some (snd (search env g s))) s).

(** The calls and the notification of one [recalculate], in order. *)
Definition recalculate_trace (env : Env) (g : Grid) (s : SkeldjsPathfinder)
  : list Effect :=
  [ Call_reset;
    Call_getShortestPath (nearest_cell (Grid_reset g) (get_position env))
                         (nearest_cell (Grid_reset g) (destination s));
    Emit (engine_recalculate
            (List.map (actual_of (snd (search env g s)))
                      (fst (search env g s))))
         (recalculated env g s) ].

(** The speed vector of lines 181-189 for a step from [here] to [pos]. *)
Definition velocity (env : Env) (here pos : Vector2.t) : Vector2.t :=
  let dist :=
    Math_hypot (PrimFloat.sub (Vector2.x here) (Vector2.x pos))
               (PrimFloat.sub (Vector2.y here) (Vector2.y pos)) in
  Vector2.mk (PrimFloat.mul dist (playerSpeed (client env)))
             (PrimFloat.mul dist (playerSpeed (client env))).

(** The move intent of one step, seen by the listeners in state [s], and
    the move when they let it through. *)
Definition step_trace (env : Env) (g : Grid) (here : Vector2.t)
  (next : Node.t) (s : SkeldjsPathfinder) : list Effect :=
  Emit (engine_move (actual_of g next)) s
  :: (if listeners env (engine_move (actual_of g next))
      then [Call_move (actual_of g next)
                      (velocity env here (actual_of g next))]
      else []).

(** The two notifications of [_stop(true)]. *)
Definition arrival_trace (s : SkeldjsPathfinder) : list Effect :=
  [ Emit (pathfinding_stop true) s; Emit pathfinding_end s ].

(** What [fs.readFileSync] and [Grid.fromBuffer] give for map [m]. *)
Definition read_grid (env : Env) (m : Z) : option Grid :=
  match readFileSync env m with
  | Some buff => Grid_fromBuffer buff
  | None => None
  end.

(** The tick acts, has a map and no grid yet, and the grid cannot be
    read. *)
Definition grid_load_fails (env : Env) (s : SkeldjsPathfinder) : bool :=
  (js_mod (increment (_tick s)) MovementInterval =? 0)
  && match get_map env, grid s with
     | Some m, None =>
         match read_grid env m with
         | Some _ => false
         | None => true
         end
     | _, _ => false
     end.

(** The tick acts, has a map and no grid yet, and reads the grid. *)
Definition grid_loaded_now (env : Env) (s : SkeldjsPathfinder)
  : option Grid :=
  if js_mod (increment (_tick s)) MovementInterval =? 0
  then match get_map env, grid s with
       | Some m, None => read_grid env m
       | _, _ => None
       end
  else None.

(** The same world with listeners that let every event through. *)
Definition accepting (env : Env) : Env :=
  {| client := client env;
     readFileSync := readFileSync env;
     listeners := fun _ => true |}.

(** ** Runs of the pathfinder

    What can happen to a pathfinder between two handlers: a tick of the
    room, a public operation, a move or a departure reported by the
    client. *)
Inductive Operation : Type :=
| op_tick
| op_go (depth : nat) (pos : GoArg)
| op_vent (depth : nat) (ventid : Z)
| op_follow (player : PlayerDataResolvable)
| op_stop
| op_pause
| op_start
| op_recalculate
| op_player_move (owner : PlayerData) (position : Vector2.t)
| op_player_leave (player : PlayerData).

(** The pathfinder after one operation in world [env] (the fields keep
    what was written when the operation throws). *)
Definition after (env : Env) (op : Operation) (s : SkeldjsPathfinder)
  : SkeldjsPathfinder :=
  match op with
  | op_tick => final (_ontick env s)
  | op_go depth pos => final (go depth env pos s)
  | op_vent depth ventid => final (vent depth env ventid s)
  | op_follow player => final (follow env player s)
  | op_stop => final (stop env s)
  | op_pause => final (pause env s)
  | op_start => final (start env s)
  | op_recalculate => final (recalculate env s)
  | op_player_move owner position => final (_handleMove owner position s)
  | op_player_leave player => final (_handleLeave env player s)
  end.

Fixpoint after_all (env : Env) (ops : list Operation)
  (s : SkeldjsPathfinder) : SkeldjsPathfinder :=
  match ops with
  | [] => s
  | op :: ops' => after_all env ops' (after env op s)
  end.

(** The states a pathfinder can be in between two handlers; the world may
    change from one operation to the next. *)
Inductive reachable : SkeldjsPathfinder -> Prop :=
| reachable_new (config : option Z) :
    reachable (new_SkeldjsPathfinder config)
| reachable_after (env : Env) (op : Operation) (s : SkeldjsPathfinder) :
    reachable s -> reachable (after env op s).

(** The dirty flag as the listeners find it, for each recalculation
    notification of a run. *)
Definition dirty_when_notified (tr : list Effect) : list bool :=
  flat_map (fun e => match e with
                     | Emit (engine_recalculate _) seen => [_moved seen]
                     | _ => []
                     end) tr.

(** A destination that waits for its first path is marked dirty. *)
Definition pending_is_dirty (s : SkeldjsPathfinder) : Prop :=
  destination s <> None -> path s = None -> _moved s = true.

(** The invariant the specification states: destination and path are both
    present or both absent. *)
Definition both_or_neither (s : SkeldjsPathfinder) : Prop :=
  (destination s <> None /\ path s <> None)
  \/ (destination s = None /\ path s = None).

End Runs.

(** ** A concrete world for the examples: an obstacle-free field

    Cells and world positions coincide, the grid counts the marks the last
    search left, and a route turns one corner at most.  The cells west of
    the line [x = 0] are walled off: no route leads there. *)
Module Field.

Definition same_cell (a b : Node.t) : bool :=
  PrimFloat.eqb (Node.x a) (Node.x b) && PrimFloat.eqb (Node.y a) (Node.y b).

Definition route (s d : option Node.t) : list Node.t :=
  match s, d with
  | Some a, Some b =>
      if same_cell a b then []
      else if PrimFloat.ltb (Node.x b) 0%float then []
      else if PrimFloat.eqb (Node.x a) (Node.x b)
              || PrimFloat.eqb (Node.y a) (Node.y b)
           then [b]
           else [Node.mk (Node.x b) (Node.y a); b]
  | _, _ => []
  end.

#[export] Instance externals : Externals :=
  {| Grid := nat;
     Buffer := list Z;
     Grid_fromBuffer :=
       fun b => match b with [] => None | _ :: _ => Some 0%nat end;
     Grid_nearest := fun _ a b => Some (Node.mk a b);
     Grid_actual := fun _ a b => Vector2.mk a b;
     Grid_reset := fun _ => 0%nat;
     getShortestPath := fun g s d => (route s d, (g + length (route s d))%nat);
     Math_hypot :=
       fun a b => PrimFloat.sqrt (PrimFloat.add (PrimFloat.mul a a)
                                                (PrimFloat.mul b b));
     MapVentData := fun _ _ => None |}.

(** A spawned player standing at [p], alone in a room on map [m]; the data
    file of map [m] is read when [file] says so; listeners answer [ok]. *)
Definition player_at (p : Vector2.t) : PlayerData :=
  {| id := 1; spawned := true;
     transform := Some {| position := Some p |} |}.

Definition world (p : Vector2.t) (m : Z) (file : option (list Z)) (ok : bool)
  : Env :=
  {| client :=
       {| room := Some {| me := Some (player_at p); map := Some m;
                          resolvePlayer :=
                            fun a => match a with
                                     | arg_resolvable (by_player q) => Some q
                                     | _ => None
                                     end |};
          playerSpeed := 1%float |};
     readFileSync := fun _ => file;
     listeners := fun _ => ok |}.

End Field.

(** ** Concrete runs on the field

    One player stands at [(1, 1)] on map [0].  A run starts from a new
    pathfinder and applies operations in one world. *)
Module Scenario.

Import Field.

Definition at_xy (a b : number) : Vector2.t := Vector2.mk a b.

Arguments at_xy (a b)%_float.

Definition here : Vector2.t := at_xy 1 1.

(** The data file is there and the listeners let everything through. *)
Definition calm : Env := world here 0 (Some [1]) true.

(** The listeners reject every cancelable event. *)
Definition strict : Env := world here 0 (Some [1]) false.

(** The data file of the map is missing. *)
Definition bare : Env := world here 0 None true.

Definition ticks (n : nat) : list Operation := repeat op_tick n.

Definition go_to (a b : number) : Operation :=
  op_go 8 (arg_vector (at_xy a b)).

Arguments go_to (a b)%_float.

(** Five ticks, no destination: the next tick is the first to act. *)
Definition idle : SkeldjsPathfinder :=
  after_all calm (ticks 5) (new_SkeldjsPathfinder None).

(** Bound for [(3, 1)], one cell east: the next tick acts. *)
Definition bound_east : SkeldjsPathfinder :=
  after_all calm (go_to 3 1 :: ticks 5) (new_SkeldjsPathfinder None).

(** Bound for [(3, 4)], two cells away round the corner. *)
Definition bound_corner : SkeldjsPathfinder :=
  after_all calm (go_to 3 4 :: ticks 5) (new_SkeldjsPathfinder None).

(** Bound for [(-2, 1)], behind the wall. *)
Definition bound_west : SkeldjsPathfinder :=
  after_all calm (go_to (-2) 1 :: ticks 5) (new_SkeldjsPathfinder None).

(** Bound for [(3, 4)] and paused before the first acting tick. *)
Definition paused_dirty : SkeldjsPathfinder :=
  after_all calm (go_to 3 4 :: op_pause :: ticks 5)
            (new_SkeldjsPathfinder None).

(** Recalculating every 7th tick, paused right after [go]: at tick 6 the
    path to [(3, 4)] was computed and held; tick 12 is next, and nothing
    makes a recalculation due there. *)
Definition paused_held : SkeldjsPathfinder :=
  after_all calm (go_to 3 4 :: op_pause :: ticks 11)
            (new_SkeldjsPathfinder (Some 7)).

(** The grid is loaded, and a second [go] has set the dirty flag. *)
Definition dirty_loaded : SkeldjsPathfinder :=
  after_all calm (go_to 3 4 :: ticks 6 ++ [go_to 5 5])
            (new_SkeldjsPathfinder None).

End Scenario.

(** ** Sequences of handlers *)

Section Sequences.

Context {ext : Externals}.

(** [{ x: dest.x, y: dest.y }]: the fresh object [_go] and [_handleMove]
    store. *)
Definition copy (v : Vector2.t) : Vector2.t :=
  Vector2.mk (Vector2.x v) (Vector2.y v).

(** One tick per world of the list, in order. *)
Fixpoint ticks_through (envs : list Env) (s : SkeldjsPathfinder)
  : SkeldjsPathfinder :=
  match envs with
  | [] => s
  | env :: envs' => ticks_through envs' (final (_ontick env s))
  end.

(** Everything those ticks did to their collaborators. *)
Fixpoint tick_effects (envs : list Env) (s : SkeldjsPathfinder)
  : list Effect :=
  match envs with
  | [] => []
  | env :: envs' =>
      effects (_ontick env s) ++ tick_effects envs' (final (_ontick env s))
  end.

(** None of those ticks gets past its guards. *)
Fixpoint none_acts (envs : list Env) (s : SkeldjsPathfinder) : Prop :=
  match envs with
  | [] => True
  | env :: envs' =>
      completion (guards env s) <> Normal true
      /\ none_acts envs' (final (_ontick env s))
  end.

(** How many of those ticks get past their guards. *)
Fixpoint acted (envs : list Env) (s : SkeldjsPathfinder) : nat :=
  match envs with
  | [] => 0%nat
  | env :: envs' =>
      ((match completion (guards env s) with
        | Normal true => 1
        | _ => 0
        end) + acted envs' (final (_ontick env s)))%nat
  end.

(** On none of those ticks that gets past its guards is a recalculation
    due. *)
Fixpoint undisturbed (envs : list Env) (s : SkeldjsPathfinder) : Prop :=
  match envs with
  | [] => True
  | env :: envs' =>
      (completion (guards env s) = Normal true ->
       recalculation_due (at_recalculation env s) = false)
      /\ undisturbed envs' (final (_ontick env s))
  end.

(** A path of [n] cells is all consumed after [k] steps. *)
Definition all_consumed (n k : nat) : bool :=
  negb (n =? 0)%nat && (k =? n)%nat.

(** Operations, each in its own world. *)
Fixpoint after_each (steps : list (Env * Operation))
  (s : SkeldjsPathfinder) : SkeldjsPathfinder :=
  match steps with
  | [] => s
  | (env, op) :: steps' => after_each steps' (after env op s)
  end.

(** The pathfinder after a successful [_go(dest)]. *)
Definition gone_to (dest : Vector2.t) (s : SkeldjsPathfinder)
  : SkeldjsPathfinder :=
  set_paused false (set_moved true (set_destination (Some (copy dest)) s)).

(** The notification a successful [_go(dest)] emits. *)
Definition go_trace (dest : Vector2.t) (s : SkeldjsPathfinder)
  : list Effect :=
  [Emit (pathfinding_start (Some (copy dest))) (gone_to dest s)].

(** The notification of the recalculation run on grid [g] in state [s]. *)
Definition recalculate_event (env : Env) (g : Grid) (s : SkeldjsPathfinder)
  : Event :=
  engine_recalculate
    (List.map (actual_of (snd (search env g s))) (fst (search env g s))).

End Sequences.

(** ** A station with one vent

    The field again, on map [1], with vent [3] at [(9, 2)]. *)
Module Station.

#[export] Instance externals : Externals :=
  {| Grid := nat;
     Buffer := list Z;
     Grid_fromBuffer :=
       fun b => match b with [] => None | _ :: _ => Some 0%nat end;
     Grid_nearest := fun _ a b => Some (Node.mk a b);
     Grid_actual := fun _ a b => Vector2.mk a b;
     Grid_reset := fun _ => 0%nat;
     getShortestPath :=
       fun g s d => (Field.route s d, (g + length (Field.route s d))%nat);
     Math_hypot :=
       fun a b => PrimFloat.sqrt (PrimFloat.add (PrimFloat.mul a a)
                                                (PrimFloat.mul b b));
     MapVentData :=
       fun m ventid =>
         if (m =? 1) && (ventid =? 3) then Some (Vector2.mk 9 2) else None |}.

(** Two players in the room: [me] at [(1, 1)], a spawned crewmate at
    [(4, 2)], and a crewmate that has not spawned. *)
Definition me_here : PlayerData :=
  {| id := 1; spawned := true;
     transform := Some {| position := Some (Vector2.mk 1 1) |} |}.

Definition crewmate : PlayerData :=
  {| id := 2; spawned := true;
     transform := Some {| position := Some (Vector2.mk 4 2) |} |}.

Definition ghost : PlayerData :=
  {| id := 3; spawned := false; transform := None |}.

Definition lookup (a : GoArg) : option PlayerData :=
  match a with
  | arg_resolvable (by_player q) => Some q
  | arg_resolvable (by_clientid n) =>
      if n =? 2 then Some crewmate
      else if n =? 3 then Some ghost
      else None
  | _ => None
  end.

Definition world (m : Z) : Env :=
  {| client :=
       {| room := Some {| me := Some me_here; map := Some m;
                          resolvePlayer := lookup |};
          playerSpeed := 1%float |};
     readFileSync := fun _ => Some [1];
     listeners := fun _ => true |}.

Definition fresh : SkeldjsPathfinder := new_SkeldjsPathfinder None.

End Station.

(** ** More runs on the field *)
Module Walk.

Import Field.
Import Scenario.

(** A second player, standing at [(4, 2)]. *)
Definition friend : PlayerData :=
  {| id := 2; spawned := true;
     transform := Some {| position := Some (at_xy 4 2) |} |}.

(** A new pathfinder that follows [friend]. *)
Definition tracker : SkeldjsPathfinder :=
  after calm (op_follow (by_player friend)) (new_SkeldjsPathfinder None).

(** [paused_held], resumed: two cells held, no recalculation due before
    tick 21. *)
Definition walker : SkeldjsPathfinder := after calm op_start paused_held.

(** Seven ticks in the calm world: ticks 12 to 18 for [walker]. *)
Definition week : list Env := repeat calm 7.

(** [tracker] after [friend] has reported a move to [(3, 4)] and five
    ticks have passed. *)
Definition chasing : SkeldjsPathfinder :=
  ticks_through (repeat calm 5)
    (final (_handleMove friend (at_xy 3 4) tracker)).

(** Bound for the cell behind the wall, paused, recalculating every 7th
    tick: tick 6 is the next to act. *)
Definition stuck : SkeldjsPathfinder :=
  after_all calm (go_to (-2) 1 :: op_pause :: ticks 5)
            (new_SkeldjsPathfinder (Some 7)).

(** Operations in changing worlds. *)
Definition errands : list (Env * Operation) :=
  [(bare, op_tick); (bare, op_stop); (strict, go_to 2 2); (bare, op_tick);
   (calm, op_recalculate); (bare, op_pause)].

End Walk.

(** * Properties *)

Unset Implicit Arguments.

Ltac unfold_handlers :=
  unfold _ontick, guards, recalculation, consumption, recalculate, load_grid,
    start, pause, stop, _stop, _go, snode, dnode, the_grid, or_throw, emit,
    bind, ret, throw, gets, modify, perform in *.

(** Case analysis on the first test the run is stuck on. *)
Ltac break_on x :=
  lazymatch x with
  | context [match _ with _ => _ end] => fail
  | negb ?b => destruct b eqn:?
  | _ => destruct x eqn:?
  end.

Ltac break_match :=
  match goal with
  | |- context [match ?x with _ => _ end] => break_on x
  end.

Ltac run_handler := unfold_handlers; cbn; repeat (break_match; cbn).

Ltac finish :=
  cbn in *; subst; try reflexivity; try discriminate; try congruence.

(** Turns the test of the cadence gate into an (in)equation. *)
Ltac cadence :=
  repeat match goal with
    | H : (_ =? 0) = true |- _ => apply Z.eqb_eq in H
    | H : (_ =? 0) = false |- _ => apply Z.eqb_neq in H
    end.

Section Sequencing.

Context {ext : Externals}.

Lemma bind_normal {A B : Type} (m : M A) (k : A -> M B)
  (s s1 : SkeldjsPathfinder) (a : A) (tr1 : list Effect) :
  m s = {| completion := Normal a; final := s1; effects := tr1 |} ->
  bind m k s
  = {| completion := completion (k a s1);
       final := final (k a s1);
       effects := tr1 ++ effects (k a s1) |}.
Proof. intros H. unfold bind. rewrite H. destruct (k a s1); reflexivity. Qed.

Lemma bind_throw {A B : Type} (m : M A) (k : A -> M B)
  (s s1 : SkeldjsPathfinder) (tr1 : list Effect) :
  m s = {| completion := Throw; final := s1; effects := tr1 |} ->
  bind m k s = {| completion := Throw; final := s1; effects := tr1 |}.
Proof. intros H. unfold bind. rewrite H. reflexivity. Qed.

End Sequencing.

Section Guards.

Context {ext : Externals}.

Variable env : Env.

Lemma guards_effects (s : SkeldjsPathfinder) : effects (guards env s) = [].
Proof. run_handler; reflexivity. Qed.

(** The guards write the counter and, at most, the grid. *)
Lemma guards_final (s : SkeldjsPathfinder) :
  final (guards env s)
  = set_grid (grid (final (guards env s)))
             (set_tick (increment (_tick s)) s).
Proof. destruct s; run_handler; reflexivity. Qed.

Lemma guards_grid (s : SkeldjsPathfinder) :
  grid (final (guards env s))
  = match grid_loaded_now env s with
    | Some g => Some g
    | None => grid s
    end.
Proof.
  unfold grid_loaded_now, read_grid. destruct s; run_handler; finish.
Qed.

Lemma guards_off_cadence (s : SkeldjsPathfinder) :
  js_mod (increment (_tick s)) MovementInterval <> 0 ->
  guards env s
  = {| completion := Normal false;
       final := set_tick (increment (_tick s)) s;
       effects := [] |}.
Proof.
  intros H. unfold_handlers. cbn.
  destruct (Z.eqb_spec (js_mod (increment (_tick s)) MovementInterval) 0);
    [contradiction | reflexivity].
Qed.

(** Past the guards the tick acts, the grid is loaded, and both cells
    exist. *)
Lemma guards_pass (s : SkeldjsPathfinder) :
  completion (guards env s) = Normal true ->
  js_mod (increment (_tick s)) MovementInterval = 0
  /\ exists g,
      grid (final (guards env s)) = Some g
      /\ nearest_cell g (get_position env) <> None
      /\ nearest_cell g (destination s) <> None.
Proof.
  unfold nearest_cell. destruct s; run_handler; intros H; finish.
  all: cadence; split; [assumption |].
  all: eexists; split; [reflexivity |]; split; congruence.
Qed.

(** And conversely: an acting tick with a map, with a grid that is loaded
    or can be read, and with both cells gets past the guards. *)
Lemma guards_open (s : SkeldjsPathfinder) (m : Z) (g : Grid) :
  js_mod (increment (_tick s)) MovementInterval = 0 ->
  get_map env = Some m ->
  grid s = Some g \/ (grid s = None /\ read_grid env m = Some g) ->
  nearest_cell g (get_position env) <> None ->
  nearest_cell g (destination s) <> None ->
  guards env s
  = {| completion := Normal true;
       final := set_grid (Some g) (set_tick (increment (_tick s)) s);
       effects := [] |}.
Proof.
  unfold nearest_cell, read_grid. intros Hc Hm Hg Hs Hd.
  apply Z.eqb_eq in Hc.
  destruct s; cbn in Hg, Hd, Hc.
  unfold_handlers; cbn. rewrite Hc, Hm; cbn.
  destruct Hg as [Hg | [Hg Hr]]; subst; cbn.
  - destruct (get_position env) as [p |]; [| congruence]. cbn.
    destruct (Grid_nearest g (Vector2.x p) (Vector2.y p)); [| congruence].
    destruct destination0 as [d |]; [| congruence]. cbn.
    destruct (Grid_nearest g (Vector2.x d) (Vector2.y d)); [| congruence].
    reflexivity.
  - destruct (readFileSync env m) as [b |]; [| discriminate]. cbn.
    rewrite Hr. cbn.
    destruct (get_position env) as [p |]; [| congruence]. cbn.
    destruct (Grid_nearest g (Vector2.x p) (Vector2.y p)); [| congruence].
    destruct destination0 as [d |]; [| congruence]. cbn.
    destruct (Grid_nearest g (Vector2.x d) (Vector2.y d)); [| congruence].
    reflexivity.
Qed.

Lemma guards_throw (s : SkeldjsPathfinder) :
  grid_load_fails env s = true ->
  guards env s
  = {| completion := Throw;
       final := set_tick (increment (_tick s)) s;
       effects := [] |}.
Proof.
  unfold grid_load_fails, read_grid.
  destruct s; run_handler; intros H; finish.
Qed.

Lemma guards_return (s : SkeldjsPathfinder) :
  grid_load_fails env s = false ->
  exists b, completion (guards env s) = Normal b.
Proof.
  unfold grid_load_fails, read_grid.
  destruct s; run_handler; intros H; finish; eauto.
Qed.

(** Without a destination or a position the guards do not pass. *)
Lemma guards_idle (s : SkeldjsPathfinder) :
  destination s = None \/ get_position env = None ->
  completion (guards env s) <> Normal true.
Proof.
  intros H Hc. apply guards_pass in Hc.
  destruct Hc as [_ [g [_ [Hs Hd]]]].
  destruct H as [H | H]; rewrite H in *; cbn in *; congruence.
Qed.

End Guards.

Section Steps.

Context {ext : Externals}.

Variable env : Env.

Lemma snode_loaded (s : SkeldjsPathfinder) (g : Grid) :
  grid s = Some g ->
  snode env s
  = {| completion := Normal (nearest_cell g (get_position env));
       final := s; effects := [] |}.
Proof. intros H. unfold nearest_cell. run_handler; finish. Qed.

Lemma dnode_loaded (s : SkeldjsPathfinder) (g : Grid) :
  grid s = Some g ->
  dnode s
  = {| completion := Normal (nearest_cell g (destination s));
       final := s; effects := [] |}.
Proof. intros H. unfold nearest_cell. run_handler; finish. Qed.

(** [recalculate] on a loaded grid: reset, search, store, notify. *)
Lemma recalculate_loaded (s : SkeldjsPathfinder) (g : Grid) :
  grid s = Some g ->
  recalculate env s
  = {| completion := Normal tt;
       final := recalculated env g s;
       effects := recalculate_trace env g s |}.
Proof.
  intros H. unfold recalculate_trace, recalculated, search, nearest_cell.
  destruct s; cbn in H; subst. run_handler; finish.
Qed.

(** Without a grid, [this.grid.reset()] is a [TypeError]. *)
Lemma recalculate_unloaded (s : SkeldjsPathfinder) :
  grid s = None ->
  recalculate env s
  = {| completion := Throw; final := s; effects := [] |}.
Proof. intros H. run_handler; finish. Qed.

Lemma recalculation_loaded (s : SkeldjsPathfinder) (g : Grid) :
  grid s = Some g ->
  recalculation env s
  = if recalculation_due s
    then {| completion := Normal tt;
            final := set_moved false (recalculated env g s);
            effects := recalculate_trace env g s |}
    else {| completion := Normal tt; final := s; effects := [] |}.
Proof.
  intros H. unfold recalculation.
  unfold bind at 1. unfold gets at 1.
  destruct (recalculation_due s); [| reflexivity].
  unfold bind. rewrite (recalculate_loaded s g H). reflexivity.
Qed.

(** After the recalculation step a path is held and the grid is loaded. *)
Lemma recalculation_holds_path (s : SkeldjsPathfinder) (g : Grid) :
  grid s = Some g ->
  exists p g',
    path (final (recalculation env s)) = Some p
    /\ grid (final (recalculation env s)) = Some g'.
Proof.
  intros H. rewrite (recalculation_loaded s g H).
  unfold recalculation_due.
  destruct (_moved s) eqn:Hm; cbn.
  - eauto.
  - destruct (path s) eqn:Hp; cbn.
    + destruct (js_mod _ _ =? 0); cbn; eauto.
    + eauto.
Qed.

Lemma consumption_paused (s : SkeldjsPathfinder) :
  _paused s = true ->
  consumption env s = {| completion := Normal tt; final := s; effects := [] |}.
Proof. intros H. run_handler; finish. Qed.

(** Nothing to shift: destination and path are dropped, silently. *)
Lemma consumption_empty (s : SkeldjsPathfinder) :
  _paused s = false ->
  path s = Some [] ->
  consumption env s
  = {| completion := Normal tt;
       final := set_path None (set_destination None s);
       effects := [] |}.
Proof. intros H1 H2. run_handler; finish. Qed.

Lemma consumption_step (s : SkeldjsPathfinder) (g : Grid)
  (here : Vector2.t) (next n : Node.t) (rest : list Node.t) :
  _paused s = false ->
  path s = Some (next :: n :: rest) ->
  grid s = Some g ->
  get_position env = Some here ->
  consumption env s
  = {| completion := Normal tt;
       final := set_path (Some (n :: rest)) s;
       effects :=
         step_trace env g here next (set_path (Some (n :: rest)) s) |}.
Proof.
  intros H1 H2 H3 H4. unfold step_trace, velocity.
  assert (Ht : exists tr, get_transform env = Some tr).
  { unfold get_position in H4. destruct (get_transform env); eauto.
    discriminate. }
  destruct Ht as [tr Ht].
  destruct s; cbn in H1, H2, H3; subst.
  unfold_handlers; cbn. rewrite H4, Ht; cbn.
  destruct (listeners env _); reflexivity.
Qed.

Lemma consumption_last (s : SkeldjsPathfinder) (g : Grid)
  (here : Vector2.t) (next : Node.t) :
  _paused s = false ->
  path s = Some [next] ->
  grid s = Some g ->
  get_position env = Some here ->
  consumption env s
  = {| completion := Normal tt;
       final := set_destination None (set_path (Some []) s);
       effects :=
         step_trace env g here next (set_path (Some []) s)
         ++ arrival_trace (set_destination None (set_path (Some []) s)) |}.
Proof.
  intros H1 H2 H3 H4. unfold step_trace, arrival_trace, velocity.
  assert (Ht : exists tr, get_transform env = Some tr).
  { unfold get_position in H4. destruct (get_transform env); eauto.
    discriminate. }
  destruct Ht as [tr Ht].
  destruct s; cbn in H1, H2, H3; subst.
  unfold_handlers; cbn. rewrite H4, Ht; cbn.
  destruct (listeners env _); reflexivity.
Qed.

End Steps.

Section Tick.

Context {ext : Externals}.

Variable env : Env.

Lemma ontick_skips (s : SkeldjsPathfinder) :
  completion (guards env s) = Normal false ->
  _ontick env s
  = {| completion := Normal tt; final := final (guards env s);
       effects := [] |}.
Proof.
  intros H. pose proof (guards_effects env s) as He.
  destruct (guards env s) as [c f e] eqn:Hg.
  cbn [completion final effects] in *. subst.
  unfold _ontick. rewrite (bind_normal _ _ _ _ _ _ Hg). reflexivity.
Qed.

Lemma ontick_throws (s : SkeldjsPathfinder) :
  grid_load_fails env s = true ->
  _ontick env s
  = {| completion := Throw; final := set_tick (increment (_tick s)) s;
       effects := [] |}.
Proof.
  intros H. unfold _ontick.
  apply bind_throw. apply guards_throw. exact H.
Qed.

(** Past the guards, the tick is the recalculation step followed by the
    consumption step. *)
Lemma ontick_acts (s : SkeldjsPathfinder) :
  completion (guards env s) = Normal true ->
  _ontick env s
  = {| completion := completion (consumption env (at_consumption env s));
       final := final (consumption env (at_consumption env s));
       effects :=
         effects (recalculation env (at_recalculation env s))
         ++ effects (consumption env (at_consumption env s)) |}.
Proof.
  intros H. pose proof (guards_effects env s) as He.
  destruct (guards_pass env s H) as [_ [g [Hg _]]].
  unfold at_consumption, at_recalculation.
  destruct (guards env s) as [c f e] eqn:Hgu.
  cbn [completion final effects] in *. subst.
  assert (Hr : exists s2 tr,
             recalculation env f
             = {| completion := Normal tt; final := s2; effects := tr |}).
  { rewrite (recalculation_loaded env f g Hg).
    destruct (recalculation_due f); eauto. }
  destruct Hr as [s2 [tr Hr]].
  unfold _ontick. rewrite (bind_normal _ _ _ _ _ _ Hgu).
  cbn [completion final effects app].
  rewrite (bind_normal _ _ _ _ _ _ Hr), Hr. reflexivity.
Qed.

(** Past the guards, the consumption step finds a grid, a path and a
    position. *)
Lemma consumption_ready (s : SkeldjsPathfinder) :
  completion (guards env s) = Normal true ->
  exists g p here,
    grid (at_consumption env s) = Some g
    /\ path (at_consumption env s) = Some p
    /\ get_position env = Some here.
Proof.
  intros H. destruct (guards_pass env s H) as [_ [g [Hg [Hs _]]]].
  unfold at_consumption, at_recalculation.
  destruct (recalculation_holds_path env _ _ Hg) as [p [g' [Hp Hg']]].
  destruct (get_position env) as [here |] eqn:Hh; [| cbn in Hs; congruence].
  eauto 10.
Qed.

End Tick.

Section Traces.

Context {ext : Externals}.

Lemma emitted_app (tr1 tr2 : list Effect) :
  emitted (tr1 ++ tr2) = emitted tr1 ++ emitted tr2.
Proof. unfold emitted. apply flat_map_app. Qed.

Lemma movements_app (tr1 tr2 : list Effect) :
  movements (tr1 ++ tr2) = movements tr1 ++ movements tr2.
Proof. unfold movements. apply flat_map_app. Qed.

Lemma emitted_recalculate_trace (env : Env) (g : Grid)
  (s : SkeldjsPathfinder) :
  emitted (recalculate_trace env g s)
  = [engine_recalculate
       (List.map (actual_of (snd (search env g s))) (fst (search env g s)))].
Proof. reflexivity. Qed.

Lemma emitted_step_trace (env : Env) (g : Grid) (here : Vector2.t)
  (next : Node.t) (s : SkeldjsPathfinder) :
  emitted (step_trace env g here next s) = [engine_move (actual_of g next)].
Proof. unfold step_trace. destruct (listeners env _); reflexivity. Qed.

Lemma movements_step_trace (env : Env) (g : Grid) (here : Vector2.t)
  (next : Node.t) (s : SkeldjsPathfinder) :
  movements (step_trace env g here next s)
  = if listeners env (engine_move (actual_of g next))
    then [(actual_of g next, velocity env here (actual_of g next))]
    else [].
Proof. unfold step_trace. destruct (listeners env _); reflexivity. Qed.

(** The recalculation step emits nothing but a recalculation
    notification and moves nobody. *)
Lemma recalculation_quiet (env : Env) (s : SkeldjsPathfinder) (g : Grid) :
  grid s = Some g ->
  filter is_stop_or_end (emitted (effects (recalculation env s))) = []
  /\ filter is_move (emitted (effects (recalculation env s))) = []
  /\ movements (effects (recalculation env s)) = [].
Proof.
  intros H. rewrite (recalculation_loaded env s g H).
  destruct (recalculation_due s); repeat split; reflexivity.
Qed.

(** The recalculation step leaves the pause flag and the destination. *)
Lemma recalculation_keeps (env : Env) (s : SkeldjsPathfinder) (g : Grid) :
  grid s = Some g ->
  _paused (final (recalculation env s)) = _paused s
  /\ destination (final (recalculation env s)) = destination s
  /\ _tick (final (recalculation env s)) = _tick s
  /\ recalculateEvery (final (recalculation env s)) = recalculateEvery s.
Proof.
  intros H. rewrite (recalculation_loaded env s g H).
  destruct (recalculation_due s); repeat split; reflexivity.
Qed.

Lemma at_consumption_keeps (env : Env) (s : SkeldjsPathfinder) :
  completion (guards env s) = Normal true ->
  _paused (at_consumption env s) = _paused s
  /\ destination (at_consumption env s) = destination s.
Proof.
  intros H. destruct (guards_pass env s H) as [_ [g [Hg _]]].
  unfold at_consumption, at_recalculation.
  destruct (recalculation_keeps env _ g Hg) as [Hp [Hd _]].
  rewrite Hp, Hd, (guards_final env s). split; reflexivity.
Qed.

(** With a grid, a path and a position the consumption step returns. *)
Lemma consumption_completes (env : Env) (s : SkeldjsPathfinder) (g : Grid)
  (p : list Node.t) (here : Vector2.t) :
  grid s = Some g ->
  path s = Some p ->
  get_position env = Some here ->
  completion (consumption env s) = Normal tt.
Proof.
  intros Hg Hp Hh. destruct (_paused s) eqn:Hpa.
  - rewrite (consumption_paused env s Hpa). reflexivity.
  - destruct p as [| next [| n rest]].
    + rewrite (consumption_empty env s Hpa Hp). reflexivity.
    + rewrite (consumption_last env s g here next Hpa Hp Hg Hh). reflexivity.
    + rewrite (consumption_step env s g here next n rest Hpa Hp Hg Hh).
      reflexivity.
Qed.

(** Up to the consumption step the handler does not depend on what the
    listeners answer. *)
Lemma at_consumption_accepting (env : Env) (s : SkeldjsPathfinder) :
  at_consumption (accepting env) s = at_consumption env s.
Proof. reflexivity. Qed.

Lemma guards_accepting (env : Env) (s : SkeldjsPathfinder) :
  guards (accepting env) s = guards env s.
Proof. reflexivity. Qed.

Lemma guards_keep (env : Env) (s : SkeldjsPathfinder) :
  path (at_recalculation env s) = path s
  /\ _moved (at_recalculation env s) = _moved s
  /\ destination (at_recalculation env s) = destination s
  /\ _paused (at_recalculation env s) = _paused s.
Proof.
  unfold at_recalculation. rewrite (guards_final env s). repeat split.
Qed.

(** The guards neither read nor write the pause flag. *)
Lemma guards_ignore_pause (env : Env) (s : SkeldjsPathfinder) (b : bool) :
  completion (guards env (set_paused b s)) = completion (guards env s)
  /\ final (guards env (set_paused b s)) = set_paused b (final (guards env s)).
Proof. destruct s; run_handler; split; reflexivity. Qed.

(** Nor does the recalculation step: paused or not, it emits the same. *)
Lemma recalculation_ignores_pause (env : Env) (s : SkeldjsPathfinder)
  (g : Grid) (b : bool) :
  grid s = Some g ->
  emitted (effects (recalculation env (set_paused b s)))
  = emitted (effects (recalculation env s)).
Proof.
  intros Hg.
  assert (Hg' : grid (set_paused b s) = Some g) by exact Hg.
  rewrite (recalculation_loaded env _ g Hg'), (recalculation_loaded env _ g Hg).
  change (recalculation_due (set_paused b s)) with (recalculation_due s).
  destruct (recalculation_due s); reflexivity.
Qed.

End Traces.

Section Invariant.

Context {ext : Externals}.

Ltac settle :=
  unfold pending_is_dirty in *; cbn in *; intros;
  try reflexivity; try congruence; auto.

Lemma ontick_pending (env : Env) (s : SkeldjsPathfinder) :
  pending_is_dirty s -> pending_is_dirty (final (_ontick env s)).
Proof.
  intros Hinv.
  assert (Hgu : pending_is_dirty (final (guards env s))).
  { rewrite (guards_final env s). exact Hinv. }
  destruct (grid_load_fails env s) eqn:Hf.
  - rewrite (ontick_throws env s Hf). exact Hinv.
  - destruct (guards_return env s Hf) as [[|] Hb].
    + destruct (guards_pass env s Hb) as [_ [g0 [Hg0 _]]].
      destruct (consumption_ready env s Hb) as [g [p [here [Hg [Hp Hh]]]]].
      rewrite (ontick_acts env s Hb). cbn [final].
      destruct (_paused (at_consumption env s)) eqn:Hpa.
      * rewrite (consumption_paused env _ Hpa). cbn [final].
        unfold pending_is_dirty. congruence.
      * destruct p as [| next [| n rest]].
        -- rewrite (consumption_empty env _ Hpa Hp). settle.
        -- rewrite (consumption_last env _ g here next Hpa Hp Hg Hh). settle.
        -- rewrite (consumption_step env _ g here next n rest Hpa Hp Hg Hh).
           settle.
    + rewrite (ontick_skips env s Hb). exact Hgu.
Qed.

(** After a tick that got past its guards, a destination that is still
    there has a path. *)
Lemma ontick_keeps_route (env : Env) (s : SkeldjsPathfinder) :
  completion (guards env s) = Normal true ->
  destination (final (_ontick env s)) <> None ->
  path (final (_ontick env s)) <> None.
Proof.
  intros Hb.
  destruct (consumption_ready env s Hb) as [g [p [here [Hg [Hp Hh]]]]].
  rewrite (ontick_acts env s Hb). cbn [final].
  destruct (_paused (at_consumption env s)) eqn:Hpa.
  - rewrite (consumption_paused env _ Hpa). cbn [final]. congruence.
  - destruct p as [| next [| n rest]].
    + rewrite (consumption_empty env _ Hpa Hp). cbn. congruence.
    + rewrite (consumption_last env _ g here next Hpa Hp Hg Hh).
      cbn. congruence.
    + rewrite (consumption_step env _ g here next n rest Hpa Hp Hg Hh).
      cbn. congruence.
Qed.

Lemma go_pending (depth : nat) (env : Env) :
  forall (pos : GoArg) (s : SkeldjsPathfinder),
    pending_is_dirty s -> pending_is_dirty (final (go depth env pos s)).
Proof.
  induction depth as [| depth IH]; intros pos s Hinv; [exact Hinv |].
  cbn [go].
  destruct (ToBoolean_opt (arg_x pos)).
  - destruct (arg_x pos), (arg_y pos); run_handler; settle.
  - destruct pos as [r | v | n].
    + destruct (resolve env (arg_resolvable r)) as [resolved |];
        [| exact Hinv].
      destruct (spawned resolved); [| exact Hinv].
      destruct (transform resolved) as [tr |]; cbn; [| exact Hinv].
      destruct (position tr) as [p |]; cbn; [| exact Hinv].
      specialize (IH (arg_vector p) s Hinv).
      destruct (go depth env (arg_vector p) s). exact IH.
    + destruct (resolve env (arg_vector v)) as [resolved |];
        [| exact Hinv].
      destruct (spawned resolved); [| exact Hinv].
      destruct (transform resolved) as [tr |]; cbn; [| exact Hinv].
      destruct (position tr) as [p |]; cbn; [| exact Hinv].
      specialize (IH (arg_vector p) s Hinv).
      destruct (go depth env (arg_vector p) s). exact IH.
    + run_handler; settle.
Qed.

Lemma after_pending (env : Env) (op : Operation) (s : SkeldjsPathfinder) :
  pending_is_dirty s -> pending_is_dirty (after env op s).
Proof.
  intros Hinv. destruct op; cbn [after].
  - apply ontick_pending. exact Hinv.
  - apply go_pending. exact Hinv.
  - unfold vent. destruct (get_map env) as [m |]; [| exact Hinv].
    destruct (m =? 0); [exact Hinv |].
    destruct (MapVentData m ventid) as [coords |]; [| exact Hinv].
    pose proof (go_pending depth env (arg_vector coords) s Hinv) as Hgo.
    unfold bind, or_throw, ret. cbv beta iota.
    destruct (go depth env (arg_vector coords) s) as [[a |] f e];
      exact Hgo.
  - unfold follow. destruct (resolve env _) as [resolved |]; [| exact Hinv].
    destruct (spawned resolved); exact Hinv.
  - unfold stop. run_handler; settle.
  - run_handler; settle.
  - run_handler; settle.
  - destruct (grid s) as [g |] eqn:Hg.
    + rewrite (recalculate_loaded env s g Hg). settle.
    + rewrite (recalculate_unloaded env s Hg). exact Hinv.
  - unfold _handleMove. run_handler; settle.
  - unfold _handleLeave. run_handler; settle.
Qed.

End Invariant.

(** * The claims

    A tick "gets past its guards" when [guards] completes with [true]: by
    [guards_pass] and [guards_open], the tick acts, the room has a map, the
    grid is loaded or can be read, and the cells of the position and of the
    destination exist.  [at_recalculation] and [at_consumption] are the
    pathfinder at lines 166 and 175 of such a tick. *)

Section Claims.

Context {ext : Externals}.

(** C10.  Every call to [start()] puts the pause flag to false and emits one
    start notification that carries the current destination, whatever it is
    (none when no destination is set); the destination, the path, the dirty
    flag and every other field stay as they were. *)
Theorem start_resumes (env : Env) (s : SkeldjsPathfinder) :
  completion (start env s) = Normal tt
  /\ final (start env s) = set_paused false s
  /\ _paused (final (start env s)) = false
  /\ emitted (effects (start env s)) = [pathfinding_start (destination s)]
  /\ destination (final (start env s)) = destination s
  /\ path (final (start env s)) = path s
  /\ _moved (final (start env s)) = _moved s.
Proof. repeat split. Qed.

(** C9 (as the code has it).  The tick handler returns normally on every
    tick but one kind: an acting tick that has a map and no grid yet and
    cannot read the grid.  There the failure of the load leaves the handler
    as an exception, after the counter was incremented and before anything
    was emitted. *)
Theorem tick_completion (env : Env) (s : SkeldjsPathfinder) :
  completion (_ontick env s)
  = (if grid_load_fails env s then Throw else Normal tt)
  /\ (if grid_load_fails env s
      then final (_ontick env s) = set_tick (increment (_tick s)) s
           /\ effects (_ontick env s) = []
      else True).
Proof.
  destruct (grid_load_fails env s) eqn:Hf.
  - rewrite (ontick_throws env s Hf). repeat split.
  - split; [| exact I].
    destruct (guards_return env s Hf) as [[|] Hb].
    + rewrite (ontick_acts env s Hb). cbn [completion].
      destruct (consumption_ready env s Hb) as [g [p [here [Hg [Hp Hh]]]]].
      exact (consumption_completes env _ g p here Hg Hp Hh).
    + rewrite (ontick_skips env s Hb). reflexivity.
Qed.

(** C8 (as the code has it).  On a tick whose counter is not a multiple of
    [MovementInterval], and on an acting tick without a destination or
    without a position, the handler emits nothing and calls nobody; it
    increments the counter and, when the tick acts with a map and no grid
    yet, it stores the grid it reads.  Nothing else changes. *)
Theorem idle_tick_frame (env : Env) (s : SkeldjsPathfinder) :
  js_mod (increment (_tick s)) MovementInterval <> 0
  \/ destination s = None \/ get_position env = None ->
  effects (_ontick env s) = []
  /\ final (_ontick env s)
     = match grid_loaded_now env s with
       | Some g => set_grid (Some g) (set_tick (increment (_tick s)) s)
       | None => set_tick (increment (_tick s)) s
       end.
Proof.
  intros H.
  assert (Hfin : final (guards env s)
                 = match grid_loaded_now env s with
                   | Some g =>
                       set_grid (Some g) (set_tick (increment (_tick s)) s)
                   | None => set_tick (increment (_tick s)) s
                   end).
  { rewrite (guards_final env s), (guards_grid env s).
    destruct (grid_loaded_now env s); [reflexivity |].
    destruct s; reflexivity. }
  destruct (grid_load_fails env s) eqn:Hf.
  - rewrite (ontick_throws env s Hf). split; [reflexivity |].
    rewrite <- Hfin, (guards_throw env s Hf). reflexivity.
  - destruct (guards_return env s Hf) as [[|] Hb].
    + exfalso. destruct H as [H | H].
      * rewrite (guards_off_cadence env s H) in Hb. discriminate.
      * exact (guards_idle env s H Hb).
    + rewrite (ontick_skips env s Hb). split; [reflexivity | exact Hfin].
Qed.

(** C1 (as the code has it).  On the tick that pops the last cell of the
    path the handler returns, the destination is cleared, the path is left
    as the empty sequence (the emptied array stays in the field, it is not
    reset to absent), and the notifications of the tick hold exactly one
    stop, with [reached = true], followed by exactly one end. *)
Theorem arrival_on_last_cell (env : Env) (s : SkeldjsPathfinder)
  (next : Node.t) :
  completion (guards env s) = Normal true ->
  _paused s = false ->
  path (at_consumption env s) = Some [next] ->
  completion (_ontick env s) = Normal tt
  /\ final (_ontick env s)
     = set_destination None (set_path (Some []) (at_consumption env s))
  /\ destination (final (_ontick env s)) = None
  /\ path (final (_ontick env s)) = Some []
  /\ filter is_stop_or_end (emitted (effects (_ontick env s)))
     = [pathfinding_stop true; pathfinding_end].
Proof.
  intros Hg Hpa Hp.
  destruct (guards_pass env s Hg) as [_ [g0 [Hg0 _]]].
  destruct (consumption_ready env s Hg) as [g [p [here [Hgr [_ Hh]]]]].
  destruct (at_consumption_keeps env s Hg) as [Hpa' _].
  rewrite Hpa in Hpa'.
  rewrite (ontick_acts env s Hg).
  rewrite (consumption_last env _ g here next Hpa' Hp Hgr Hh).
  cbn [completion final effects]. repeat split.
  rewrite !emitted_app, !filter_app.
  destruct (recalculation_quiet env _ g0 Hg0) as [Hq _].
  fold (at_recalculation env s) in Hq. rewrite Hq.
  rewrite emitted_step_trace. reflexivity.
Qed.

(** C3 (as the code has it).  A recalculation calls [grid.reset()], then
    the shortest-path search on the reset grid, stores the result, and then
    emits the recalculation notification with the whole new path in world
    coordinates.  The public [recalculate] stops there and leaves the dirty
    flag as it was, so the listeners are notified before the flag changes;
    the tick handler, whatever made the recalculation due, clears the dirty
    flag after [recalculate] has returned. *)
Theorem recalculation_order (env : Env) (s : SkeldjsPathfinder) (g : Grid) :
  grid s = Some g ->
  completion (recalculate env s) = Normal tt
  /\ effects (recalculate env s)
     = [ Call_reset;
         Call_getShortestPath
           (nearest_cell (Grid_reset g) (get_position env))
           (nearest_cell (Grid_reset g) (destination s));
         Emit (engine_recalculate
                 (List.map (actual_of (snd (search env g s)))
                           (fst (search env g s))))
              (recalculated env g s) ]
  /\ final (recalculate env s) = recalculated env g s
  /\ path (recalculated env g s) = Some (fst (search env g s))
  /\ _moved (recalculated env g s) = _moved s
  /\ recalculation env s
     = (if recalculation_due s
        then {| completion := Normal tt;
                final := set_moved false (final (recalculate env s));
                effects := effects (recalculate env s) |}
        else {| completion := Normal tt; final := s; effects := [] |}).
Proof.
  intros H.
  rewrite (recalculation_loaded env s g H), (recalculate_loaded env s g H).
  repeat split.
Qed.

(** C6.  On a tick that reaches the consumption step unpaused with a cell
    to pop, and whose move intent the listeners reject: the intent was
    emitted, no movement is issued, the first cell is gone from the path,
    and the pathfinder ends the tick exactly as it would have, had the
    intent been accepted. *)
Theorem rejected_move_still_pops (env : Env) (s : SkeldjsPathfinder)
  (g : Grid) (next : Node.t) (rest : list Node.t) :
  completion (guards env s) = Normal true ->
  _paused s = false ->
  path (at_consumption env s) = Some (next :: rest) ->
  grid (at_consumption env s) = Some g ->
  listeners env (engine_move (actual_of g next)) = false ->
  completion (_ontick env s) = Normal tt
  /\ filter is_move (emitted (effects (_ontick env s)))
     = [engine_move (actual_of g next)]
  /\ movements (effects (_ontick env s)) = []
  /\ path (final (_ontick env s)) = Some rest
  /\ final (_ontick env s) = final (_ontick (accepting env) s).
Proof.
  intros Hg Hpa Hp Hgr Hno.
  assert (Hg' : completion (guards (accepting env) s) = Normal true)
    by (rewrite guards_accepting; exact Hg).
  destruct (guards_pass env s Hg) as [_ [g0 [Hg0 _]]].
  destruct (consumption_ready env s Hg) as [g1 [p [here [_ [_ Hh]]]]].
  destruct (at_consumption_keeps env s Hg) as [Hpa' _].
  rewrite Hpa in Hpa'.
  destruct (recalculation_quiet env _ g0 Hg0) as [_ [Hq1 Hq2]].
  fold (at_recalculation env s) in Hq1, Hq2.
  rewrite (ontick_acts env s Hg), (ontick_acts (accepting env) s Hg').
  rewrite at_consumption_accepting.
  destruct rest as [| n rest].
  - rewrite (consumption_last env _ g here next Hpa' Hp Hgr Hh).
    rewrite (consumption_last (accepting env) _ g here next Hpa' Hp Hgr Hh).
    cbn [completion final effects].
    rewrite !emitted_app, !movements_app, !filter_app, Hq1, Hq2.
    rewrite emitted_step_trace, movements_step_trace, Hno.
    repeat split.
  - rewrite (consumption_step env _ g here next n rest Hpa' Hp Hgr Hh).
    rewrite (consumption_step (accepting env) _ g here next n rest
               Hpa' Hp Hgr Hh).
    cbn [completion final effects].
    rewrite !emitted_app, !movements_app, !filter_app, Hq1, Hq2.
    rewrite emitted_step_trace, movements_step_trace, Hno.
    repeat split.
Qed.

(** C7.  While the pause flag is set, the move-intent step is the only
    step suppressed.  A tick that gets past its guards runs its
    recalculation step as it would unpaused: when a recalculation is due
    the notification is emitted with the whole new path, the new path is
    stored and the dirty flag cleared.  Then the handler returns (line
    175): the step that pops the next cell and emits its move intent does
    not run, so no movement is issued, no arrival is signalled and the
    destination stays.  What the same pathfinder would emit unpaused is
    what it emits paused, followed by the events of that one step. *)
Theorem paused_tick_only_recalculates (env : Env) (s : SkeldjsPathfinder)
  (g : Grid) :
  completion (guards env s) = Normal true ->
  _paused s = true ->
  grid (at_recalculation env s) = Some g ->
  completion (_ontick env s) = Normal tt
  /\ effects (_ontick env s)
     = effects (recalculation env (at_recalculation env s))
  /\ final (_ontick env s) = at_consumption env s
  /\ emitted (effects (_ontick env s))
     = (if recalculation_due (at_recalculation env s)
        then [engine_recalculate
                (List.map
                   (actual_of (snd (search env g (at_recalculation env s))))
                   (fst (search env g (at_recalculation env s))))]
        else [])
  /\ path (final (_ontick env s))
     = (if recalculation_due (at_recalculation env s)
        then Some (fst (search env g (at_recalculation env s)))
        else path s)
  /\ _moved (final (_ontick env s))
     = (if recalculation_due (at_recalculation env s)
        then false
        else _moved s)
  /\ movements (effects (_ontick env s)) = []
  /\ destination (final (_ontick env s)) = destination s
  /\ emitted (effects (_ontick env (set_paused false s)))
     = emitted (effects (_ontick env s))
       ++ emitted (effects (consumption env
                              (at_consumption env (set_paused false s)))).
Proof.
  intros Hg Hps Hgr.
  destruct (at_consumption_keeps env s Hg) as [Hpa Hd].
  rewrite Hps in Hpa.
  destruct (guards_keep env s) as [Hkp [Hkm _]].
  destruct (guards_ignore_pause env s false) as [Hc Hf].
  assert (Hg' : completion (guards env (set_paused false s)) = Normal true)
    by (rewrite Hc; exact Hg).
  assert (Hrec : emitted (effects (recalculation env
                                     (at_recalculation env
                                        (set_paused false s))))
                 = emitted (effects (recalculation env
                                       (at_recalculation env s)))).
  { unfold at_recalculation. rewrite Hf.
    apply (recalculation_ignores_pause env _ g). exact Hgr. }
  rewrite (ontick_acts env (set_paused false s) Hg').
  rewrite (ontick_acts env s Hg), (consumption_paused env _ Hpa).
  cbn [completion final effects]. rewrite app_nil_r, emitted_app, Hrec, Hd.
  unfold at_consumption.
  rewrite (recalculation_loaded env _ g Hgr).
  destruct (recalculation_due (at_recalculation env s));
    cbn [completion final effects].
  - split; [reflexivity |]. split; [reflexivity |]. split; [reflexivity |].
    split; [reflexivity |]. split; [reflexivity |]. split; [reflexivity |].
    split; [reflexivity |]. split; reflexivity.
  - split; [reflexivity |]. split; [reflexivity |]. split; [reflexivity |].
    split; [reflexivity |]. split; [exact Hkp |]. split; [exact Hkm |].
    split; [reflexivity |]. split; reflexivity.
Qed.

(** C5 (as the code has it).  In every state the pathfinder can be in
    between two handlers, a destination that has no path yet is marked
    dirty; and after a tick that got past its guards, a destination that is
    still there has a path.  (Destination and path are not both present or
    both absent in general.) *)
Theorem destination_and_path (s : SkeldjsPathfinder) :
  reachable s ->
  (destination s <> None -> path s = None -> _moved s = true)
  /\ (forall env : Env,
        completion (guards env s) = Normal true ->
        destination (final (_ontick env s)) <> None ->
        path (final (_ontick env s)) <> None).
Proof.
  intros Hr. split.
  - change (pending_is_dirty s).
    induction Hr as [config | env op s Hr IH].
    + intros Hd _. cbn in Hd. congruence.
    + apply after_pending. exact IH.
  - intros env. apply ontick_keeps_route.
Qed.

(** What [go] does with a position or a cell whose [x] is truthy: the
    destination becomes the pair of the argument's coordinates (for a cell,
    its grid coordinates), the dirty flag is set, the pathfinder is resumed
    and the start notification carries the destination. *)
Lemma go_truthy (depth : nat) (env : Env) (pos : GoArg) (vx vy : number)
  (s : SkeldjsPathfinder) :
  arg_x pos = Some vx ->
  arg_y pos = Some vy ->
  ToBoolean vx = true ->
  go (S depth) env pos s
  = {| completion := Normal None;
       final := set_paused false
                  (set_moved true
                     (set_destination (Some (Vector2.mk vx vy)) s));
       effects :=
         [Emit (pathfinding_start (Some (Vector2.mk vx vy)))
               (set_paused false
                  (set_moved true
                     (set_destination (Some (Vector2.mk vx vy)) s)))] |}.
Proof.
  intros Hx Hy Ht. cbn [go]. rewrite Hx, Hy. cbn [ToBoolean_opt].
  rewrite Ht. reflexivity.
Qed.

(** What [go] does with a cell whose [x] is falsy: it returns the cell's
    world position and sets nothing. *)
Lemma go_falsy_node (depth : nat) (env : Env) (n : Node.t) (g : Grid)
  (s : SkeldjsPathfinder) :
  ToBoolean (Node.x n) = false ->
  grid s = Some g ->
  go (S depth) env (arg_node n) s
  = {| completion := Normal (Some (actual_of g n)); final := s;
       effects := [] |}.
Proof.
  intros Ht Hg. cbn [go arg_x ToBoolean_opt]. rewrite Ht.
  unfold_handlers. rewrite Hg. reflexivity.
Qed.

(** C4 (where the code departs from the claim).  [go] with a position whose
    [x] is falsy ([0], [-0] or [NaN]) that the room does not resolve to a
    player returns at once: no destination, no dirty flag, no start
    notification. *)
Theorem go_ignores_falsy_x (depth : nat) (env : Env) (v : Vector2.t)
  (s : SkeldjsPathfinder) :
  ToBoolean (Vector2.x v) = false ->
  resolve env (arg_vector v) = None ->
  go (S depth) env (arg_vector v) s
  = {| completion := Normal None; final := s; effects := [] |}.
Proof.
  intros Ht Hr. cbn [go arg_x ToBoolean_opt]. rewrite Ht, Hr. reflexivity.
Qed.

End Claims.

(** * Further properties of the handlers *)

Section Ticks.

Context {ext : Externals}.

(** A tick that does not get past its guards emits nothing and ends where
    the guards end, also when the load of the grid throws. *)
Lemma ontick_stopped_at_guards (env : Env) (s : SkeldjsPathfinder) :
  completion (guards env s) <> Normal true ->
  effects (_ontick env s) = []
  /\ final (_ontick env s) = final (guards env s).
Proof.
  intros H. destruct (grid_load_fails env s) eqn:Hf.
  - rewrite (ontick_throws env s Hf), (guards_throw env s Hf). split; reflexivity.
  - destruct (guards_return env s Hf) as [[|] Hb]; [contradiction |].
    rewrite (ontick_skips env s Hb). split; reflexivity.
Qed.

(** The fields the guards leave alone. *)
Lemma guards_frame (env : Env) (s : SkeldjsPathfinder) :
  destination (final (guards env s)) = destination s
  /\ path (final (guards env s)) = path s
  /\ _moved (final (guards env s)) = _moved s
  /\ _paused (final (guards env s)) = _paused s
  /\ following (final (guards env s)) = following s
  /\ recalculateEvery (final (guards env s)) = recalculateEvery s
  /\ _tick (final (guards env s)) = increment (_tick s).
Proof. rewrite (guards_final env s). repeat split. Qed.

(** Without a destination every tick stops at its guards. *)
Lemma idle_without_destination (envs : list Env) :
  forall s : SkeldjsPathfinder,
    destination s = None ->
    tick_effects envs s = []
    /\ acted envs s = 0%nat
    /\ destination (ticks_through envs s) = None
    /\ path (ticks_through envs s) = path s
    /\ _moved (ticks_through envs s) = _moved s
    /\ _paused (ticks_through envs s) = _paused s
    /\ following (ticks_through envs s) = following s.
Proof.
  induction envs as [| env envs IH]; intros s Hd.
  - cbn. repeat split. exact Hd.
  - cbn [tick_effects ticks_through acted].
    assert (Hn : completion (guards env s) <> Normal true)
      by (apply guards_idle; left; exact Hd).
    destruct (ontick_stopped_at_guards env s Hn) as [He Hf].
    destruct (guards_frame env s) as [F1 [F2 [F3 [F4 [F5 _]]]]].
    rewrite He, Hf. cbn [app].
    assert (Hd' : destination (final (guards env s)) = None)
      by (rewrite F1; exact Hd).
    destruct (IH _ Hd') as [I1 [I0 [I2 [I3 [I4 [I5 I6]]]]]].
    rewrite I0, I1, I2, I3, I4, I5, I6, F2, F3, F4, F5.
    destruct (completion (guards env s)) as [[|] |];
      [contradiction | |]; repeat split.
Qed.

(** X1.  A pathfinder without a destination stays idle: whatever the worlds
    of the following ticks are (also when a grid load throws), the ticks
    emit no notification and call none of [grid.reset], the search and
    [transform.move], and they leave the destination absent and the path,
    the dirty flag, the pause flag and the followed player as they were.
    An acting tick may still read the grid file of the map (lines 157-162);
    that load is no [Effect] and is not excluded here. *)
Theorem without_destination_ticks_are_idle (envs : list Env)
  (s : SkeldjsPathfinder) :
  destination s = None ->
  tick_effects envs s = []
  /\ destination (ticks_through envs s) = None
  /\ path (ticks_through envs s) = path s
  /\ _moved (ticks_through envs s) = _moved s
  /\ _paused (ticks_through envs s) = _paused s
  /\ following (ticks_through envs s) = following s.
Proof.
  intros Hd.
  destruct (idle_without_destination envs s Hd)
    as [I1 [_ [I2 [I3 [I4 [I5 I6]]]]]].
  repeat split; assumption.
Qed.

(** Ticks that stop at their guards keep destination, path and flags. *)
Lemma none_acts_frame (envs : list Env) :
  forall s : SkeldjsPathfinder,
    none_acts envs s ->
    tick_effects envs s = []
    /\ destination (ticks_through envs s) = destination s
    /\ path (ticks_through envs s) = path s
    /\ _moved (ticks_through envs s) = _moved s
    /\ _paused (ticks_through envs s) = _paused s
    /\ following (ticks_through envs s) = following s.
Proof.
  induction envs as [| env envs IH]; intros s Hn.
  - cbn. repeat split.
  - cbn [tick_effects ticks_through]. destruct Hn as [Hn Hrest].
    destruct (ontick_stopped_at_guards env s Hn) as [He Hf].
    destruct (guards_frame env s) as [F1 [F2 [F3 [F4 [F5 _]]]]].
    destruct (IH _ Hrest) as [I1 [I2 [I3 [I4 [I5 I6]]]]].
    rewrite I1, I2, I3, I4, I5, I6, He, Hf, F1, F2, F3, F4, F5.
    repeat split.
Qed.

(** The consumption step never sets the dirty flag. *)
Lemma consumption_keeps_moved (env : Env) (s : SkeldjsPathfinder)
  (g : Grid) (p : list Node.t) (here : Vector2.t) :
  grid s = Some g ->
  path s = Some p ->
  get_position env = Some here ->
  _moved (final (consumption env s)) = _moved s.
Proof.
  intros Hg Hp Hh. destruct (_paused s) eqn:Hpa.
  - rewrite (consumption_paused env s Hpa). reflexivity.
  - destruct p as [| next [| n rest]].
    + rewrite (consumption_empty env s Hpa Hp). reflexivity.
    + rewrite (consumption_last env s g here next Hpa Hp Hg Hh). reflexivity.
    + rewrite (consumption_step env s g here next n rest Hpa Hp Hg Hh).
      reflexivity.
Qed.

(** X2.  After every tick that gets past its guards the dirty flag is
    clear, whether or not a recalculation ran and whether the tick ended in
    a step, an arrival or a dropped destination: unlike [stop()], an
    arrival does not mark the pathfinder dirty. *)
Theorem acting_tick_clears_dirty (env : Env) (s : SkeldjsPathfinder) :
  completion (guards env s) = Normal true ->
  _moved (final (_ontick env s)) = false.
Proof.
  intros Hb.
  destruct (guards_pass env s Hb) as [_ [g0 [Hg0 _]]].
  destruct (consumption_ready env s Hb) as [g [p [here [Hg [Hp Hh]]]]].
  rewrite (ontick_acts env s Hb). cbn [final].
  rewrite (consumption_keeps_moved env _ g p here Hg Hp Hh).
  unfold at_consumption, at_recalculation.
  rewrite (recalculation_loaded env _ g0 Hg0).
  destruct (recalculation_due (final (guards env s))) eqn:Hdue;
    [reflexivity |].
  cbn [final]. unfold recalculation_due in Hdue.
  destruct (_moved (final (guards env s))); [discriminate | reflexivity].
Qed.

(** A tick past its guards with a recalculation due: the notification of
    the fresh search comes first, and the consumption step starts from the
    fresh path. *)
Lemma due_tick_recalculates_first (env : Env) (s : SkeldjsPathfinder)
  (g : Grid) :
  completion (guards env s) = Normal true ->
  grid (at_recalculation env s) = Some g ->
  recalculation_due (at_recalculation env s) = true ->
  emitted (effects (_ontick env s))
  = recalculate_event env g (at_recalculation env s)
    :: emitted (effects (consumption env (at_consumption env s)))
  /\ path (at_consumption env s)
     = Some (fst (search env g (at_recalculation env s))).
Proof.
  intros Hb Hg Hdue. rewrite (ontick_acts env s Hb). cbn [effects].
  unfold at_consumption.
  rewrite (recalculation_loaded env _ g Hg), Hdue. cbn [effects final].
  rewrite emitted_app. split; reflexivity.
Qed.

(** X3.  Without [recalculateEvery] in the configuration, or with [0], the
    period is 1: every tick that gets past its guards recalculates.  The
    recalculation notification is the first event of the tick, and the path
    the tick goes on to consume is the fresh one: a path never carries over
    from one acting tick to the next. *)
Theorem default_period_recalculates_every_acting_tick (env : Env)
  (s : SkeldjsPathfinder) (g : Grid) :
  recalculateEvery s = None \/ recalculateEvery s = Some 0 ->
  completion (guards env s) = Normal true ->
  grid (at_recalculation env s) = Some g ->
  emitted (effects (_ontick env s))
  = recalculate_event env g (at_recalculation env s)
    :: emitted (effects (consumption env (at_consumption env s)))
  /\ path (at_consumption env s)
     = Some (fst (search env g (at_recalculation env s))).
Proof.
  intros Hcfg Hb Hg. apply due_tick_recalculates_first; try assumption.
  unfold recalculation_due, at_recalculation.
  destruct (guards_frame env s) as [_ [_ [_ [_ [_ [Hk _]]]]]].
  rewrite Hk.
  assert (Hp : period (recalculateEvery s) = 1)
    by (destruct Hcfg as [H | H]; rewrite H; reflexivity).
  rewrite Hp. unfold js_mod. rewrite Z.rem_1_r.
  rewrite !orb_true_r. reflexivity.
Qed.

(** What the consumption step does to its collaborators: nothing, one
    step, or the last step and the arrival. *)
Lemma consumption_effects (env : Env) (s : SkeldjsPathfinder) (g : Grid)
  (p : list Node.t) (here : Vector2.t) :
  grid s = Some g ->
  path s = Some p ->
  get_position env = Some here ->
  effects (consumption env s) = []
  \/ (exists next st, effects (consumption env s)
                      = step_trace env g here next st)
  \/ (exists next st st', effects (consumption env s)
                          = step_trace env g here next st
                            ++ arrival_trace st').
Proof.
  intros Hg Hp Hh. destruct (_paused s) eqn:Hpa.
  - rewrite (consumption_paused env s Hpa). left. reflexivity.
  - destruct p as [| next [| n rest]].
    + rewrite (consumption_empty env s Hpa Hp). left. reflexivity.
    + rewrite (consumption_last env s g here next Hpa Hp Hg Hh).
      right. right. do 3 eexists. reflexivity.
    + rewrite (consumption_step env s g here next n rest Hpa Hp Hg Hh).
      right. left. do 2 eexists. reflexivity.
Qed.

(** X4.  The notifications of one tick, in order: at most one
    recalculation, then at most one move intent, then, only after a move
    intent, the pair stop([reached = true]), end.  A tick never emits a
    start or a pause notification, nor a stop with [reached = false]. *)
Theorem tick_notifications_shape (env : Env) (s : SkeldjsPathfinder) :
  exists rc mv ar : list Event,
    emitted (effects (_ontick env s)) = rc ++ mv ++ ar
    /\ (rc = [] \/ exists p, rc = [engine_recalculate p])
    /\ (mv = [] \/ exists pos, mv = [engine_move pos])
    /\ (ar = [] \/ (ar = [pathfinding_stop true; pathfinding_end]
                    /\ mv <> [])).
Proof.
  destruct (grid_load_fails env s) eqn:Hf.
  { rewrite (ontick_throws env s Hf).
    exists [], [], []. split; [reflexivity |].
    split; [left; reflexivity |]. split; left; reflexivity. }
  destruct (guards_return env s Hf) as [[|] Hb].
  2:{ rewrite (ontick_skips env s Hb).
      exists [], [], []. split; [reflexivity |].
      split; [left; reflexivity |]. split; left; reflexivity. }
  destruct (guards_pass env s Hb) as [_ [g0 [Hg0 _]]].
  destruct (consumption_ready env s Hb) as [g [p [here [Hg [Hp Hh]]]]].
  rewrite (ontick_acts env s Hb). cbn [effects]. rewrite emitted_app.
  exists (emitted (effects (recalculation env (at_recalculation env s)))).
  assert (Hrc : emitted (effects (recalculation env (at_recalculation env s)))
                = []
                \/ exists q,
                    emitted (effects (recalculation env (at_recalculation env s)))
                    = [engine_recalculate q]).
  { unfold at_recalculation. rewrite (recalculation_loaded env _ g0 Hg0).
    destruct (recalculation_due _); cbn [effects];
      [right; eexists; reflexivity | left; reflexivity]. }
  destruct (consumption_effects env _ g p here Hg Hp Hh)
    as [He | [[next [st He]] | [next [st [st' He]]]]]; rewrite He.
  - exists [], []. split; [reflexivity |]. split; [exact Hrc |].
    split; left; reflexivity.
  - exists [engine_move (actual_of g next)], [].
    rewrite emitted_step_trace. split; [reflexivity |].
    split; [exact Hrc |].
    split; [right; eexists; reflexivity | left; reflexivity].
  - exists [engine_move (actual_of g next)],
           [pathfinding_stop true; pathfinding_end].
    rewrite emitted_app, emitted_step_trace. split; [reflexivity |].
    split; [exact Hrc |].
    split; [right; eexists; reflexivity |].
    right. split; [reflexivity | discriminate].
Qed.

(** X5.  A tick issues at most one movement, and only for a move intent
    that it emitted in the same tick and that the listeners let through;
    the movement goes to the position of the intent, with the same speed on
    both axes. *)
Theorem movement_needs_accepted_intent (env : Env) (s : SkeldjsPathfinder) :
  movements (effects (_ontick env s)) = []
  \/ exists pos vel,
      movements (effects (_ontick env s)) = [(pos, vel)]
      /\ In (engine_move pos) (emitted (effects (_ontick env s)))
      /\ listeners env (engine_move pos) = true
      /\ Vector2.x vel = Vector2.y vel.
Proof.
  destruct (grid_load_fails env s) eqn:Hf.
  { rewrite (ontick_throws env s Hf). left. reflexivity. }
  destruct (guards_return env s Hf) as [[|] Hb].
  2:{ rewrite (ontick_skips env s Hb). left. reflexivity. }
  destruct (guards_pass env s Hb) as [_ [g0 [Hg0 _]]].
  destruct (consumption_ready env s Hb) as [g [p [here [Hg [Hp Hh]]]]].
  destruct (recalculation_quiet env _ g0 Hg0) as [_ [_ Hq]].
  fold (at_recalculation env s) in Hq.
  rewrite (ontick_acts env s Hb). cbn [effects].
  rewrite movements_app, emitted_app, Hq. cbn [app].
  destruct (consumption_effects env _ g p here Hg Hp Hh)
    as [He | [[next [st He]] | [next [st [st' He]]]]]; rewrite He.
  - left. reflexivity.
  - rewrite movements_step_trace, emitted_step_trace.
    destruct (listeners env (engine_move (actual_of g next))) eqn:Hl;
      [| left; reflexivity].
    right. do 2 eexists. split; [reflexivity |].
    split; [apply in_or_app; right; left; reflexivity |].
    split; [exact Hl | reflexivity].
  - rewrite movements_app, emitted_app, movements_step_trace,
      emitted_step_trace.
    destruct (listeners env (engine_move (actual_of g next))) eqn:Hl;
      [| left; reflexivity].
    right. do 2 eexists. split; [reflexivity |].
    split; [apply in_or_app; right; left; reflexivity |].
    split; [exact Hl | reflexivity].
Qed.

Lemma emitted_tick_effects_cons (env : Env) (envs : list Env)
  (s : SkeldjsPathfinder) :
  emitted (tick_effects (env :: envs) s)
  = emitted (effects (_ontick env s))
    ++ emitted (tick_effects envs (final (_ontick env s))).
Proof. cbn [tick_effects]. apply emitted_app. Qed.

(** One tick of a paused pathfinder: no step, no arrival, and the pause
    flag and the destination stay. *)
Lemma paused_tick_holds (env : Env) (s : SkeldjsPathfinder) :
  _paused s = true ->
  movements (effects (_ontick env s)) = []
  /\ filter is_move (emitted (effects (_ontick env s))) = []
  /\ filter is_stop_or_end (emitted (effects (_ontick env s))) = []
  /\ _paused (final (_ontick env s)) = true
  /\ destination (final (_ontick env s)) = destination s.
Proof.
  intros Hp.
  destruct (guards_frame env s) as [F1 [_ [_ [F4 _]]]].
  destruct (grid_load_fails env s) eqn:Hf.
  { rewrite (ontick_throws env s Hf). cbn. repeat split. exact Hp. }
  destruct (guards_return env s Hf) as [[|] Hb].
  - destruct (guards_pass env s Hb) as [_ [g0 [Hg0 _]]].
    destruct (at_consumption_keeps env s Hb) as [Hpa Hd].
    rewrite Hp in Hpa.
    destruct (recalculation_quiet env _ g0 Hg0) as [Q1 [Q2 Q3]].
    fold (at_recalculation env s) in Q1, Q2, Q3.
    rewrite (ontick_acts env s Hb), (consumption_paused env _ Hpa).
    cbn [final effects]. rewrite app_nil_r, Q1, Q2, Q3, Hpa, Hd.
    repeat split.
  - rewrite (ontick_skips env s Hb). cbn [final effects].
    rewrite F1, F4, Hp. repeat split.
Qed.

(** X22.  A paused pathfinder never moves: as long as only ticks happen, in
    whatever worlds and however many, no move intent is emitted, no
    movement is issued, no arrival is signalled, and the pause flag and the
    destination stay as they are. *)
Theorem paused_pathfinder_never_moves (envs : list Env)
  (s : SkeldjsPathfinder) :
  _paused s = true ->
  movements (tick_effects envs s) = []
  /\ filter is_move (emitted (tick_effects envs s)) = []
  /\ filter is_stop_or_end (emitted (tick_effects envs s)) = []
  /\ _paused (ticks_through envs s) = true
  /\ destination (ticks_through envs s) = destination s.
Proof.
  revert s. induction envs as [| env envs IH]; intros s Hp.
  - cbn. repeat split. exact Hp.
  - destruct (paused_tick_holds env s Hp) as [H1 [H2 [H3 [H4 H5]]]].
    destruct (IH _ H4) as [I1 [I2 [I3 [I4 I5]]]].
    rewrite emitted_tick_effects_cons. cbn [tick_effects ticks_through].
    rewrite movements_app, !filter_app, H1, H2, H3, I1, I2, I3, I4, I5, H5.
    repeat split.
Qed.

(** X23.  A held path is walked cell by cell.  Take an unpaused
    pathfinder that holds a path on a loaded grid, and ticks on none of
    which a recalculation is due.  Each tick that gets past its guards pops
    exactly the first remaining cell and emits the move intent for it, the
    other ticks pop nothing: after [k] acting ticks the first [k] cells
    were announced, in order, and the rest of the path is held.  The stop
    and end notifications are emitted once, on the tick that pops the last
    cell, which also clears the destination; no earlier tick emits them. *)
Theorem held_path_is_walked_in_order (envs : list Env) :
  forall (s : SkeldjsPathfinder) (g : Grid) (p : list Node.t),
    _paused s = false ->
    grid s = Some g ->
    path s = Some p ->
    undisturbed envs s ->
    (acted envs s <= length p)%nat ->
    path (ticks_through envs s) = Some (skipn (acted envs s) p)
    /\ filter is_move (emitted (tick_effects envs s))
       = List.map (fun n => engine_move (actual_of g n))
                  (firstn (acted envs s) p)
    /\ filter is_stop_or_end (emitted (tick_effects envs s))
       = (if all_consumed (length p) (acted envs s)
          then [pathfinding_stop true; pathfinding_end]
          else [])
    /\ destination (ticks_through envs s)
       = (if all_consumed (length p) (acted envs s)
          then None
          else destination s).
Proof.
  induction envs as [| env envs IH]; intros s g p Hpa Hg Hp Hu Hk.
  - cbn. unfold all_consumed. rewrite Hp.
    destruct p; cbn; repeat split.
  - destruct Hu as [Hdue Hu].
    destruct (guards_frame env s) as [F1 [F2 [_ [F4 _]]]].
    assert (Fg : grid (final (guards env s)) = Some g).
    { rewrite (guards_grid env s). unfold grid_loaded_now. rewrite Hg.
      destruct (js_mod _ _ =? 0); [destruct (get_map env) |]; reflexivity. }
    rewrite emitted_tick_effects_cons.
    cbn [ticks_through acted] in *.
    destruct (completion (guards env s)) as [[|] |] eqn:Hb.
    + (* the tick gets past its guards *)
      specialize (Hdue eq_refl).
      destruct (consumption_ready env s Hb) as [g1 [p1 [here [_ [_ Hh]]]]].
      assert (Hs1 : at_consumption env s = final (guards env s)).
      { unfold at_consumption, at_recalculation in *.
        rewrite (recalculation_loaded env _ g Fg), Hdue. reflexivity. }
      assert (He1 : effects (recalculation env (at_recalculation env s)) = []).
      { unfold at_recalculation in *.
        rewrite (recalculation_loaded env _ g Fg), Hdue. reflexivity. }
      rewrite (ontick_acts env s Hb) in *. cbn [final effects] in *.
      rewrite He1, Hs1 in *. cbn [app] in *.
      assert (Hpa1 : _paused (final (guards env s)) = false)
        by (rewrite F4; exact Hpa).
      assert (Hp1 : path (final (guards env s)) = Some p)
        by (rewrite F2; exact Hp).
      destruct p as [| next [| n rest]]; [cbn in Hk; lia | |].
      * (* the last cell *)
        rewrite (consumption_last env _ g here next Hpa1 Hp1 Fg Hh) in *.
        cbn [final effects] in *.
        destruct (idle_without_destination envs
                    (set_destination None
                       (set_path (Some []) (final (guards env s))))
                    eq_refl) as [I1 [I0 [I2 [I3 _]]]].
        rewrite I0, I1, I2, I3. cbn [emitted flat_map app].
        rewrite app_nil_r, emitted_app, !filter_app, emitted_step_trace.
        cbn. repeat split.
      * (* a cell on the way *)
        rewrite (consumption_step env _ g here next n rest Hpa1 Hp1 Fg Hh)
          in *.
        cbn [final effects] in *.
        destruct (IH (set_path (Some (n :: rest)) (final (guards env s)))
                    g (n :: rest) Hpa1 Fg eq_refl Hu)
          as [I1 [I2 [I3 I4]]]; [cbn [length] in *; lia |].
        rewrite I1, !filter_app, I2, I3, I4, emitted_step_trace.
        cbn [set_path destination]. rewrite F1.
        unfold all_consumed. cbn. repeat split.
    + (* the tick stops at its guards *)
      assert (Hn : completion (guards env s) <> Normal true)
        by (rewrite Hb; discriminate).
      destruct (ontick_stopped_at_guards env s Hn) as [He Hf].
      rewrite He, Hf in *. cbn [app emitted flat_map plus] in *.
      destruct (IH (final (guards env s)) g p) as [I1 [I2 [I3 I4]]];
        try assumption; try congruence.
      rewrite I1, I2, I3, I4, F1. repeat split.
    + (* the load of the grid throws *)
      assert (Hn : completion (guards env s) <> Normal true)
        by (rewrite Hb; discriminate).
      destruct (ontick_stopped_at_guards env s Hn) as [He Hf].
      rewrite He, Hf in *. cbn [app emitted flat_map plus] in *.
      destruct (IH (final (guards env s)) g p) as [I1 [I2 [I3 I4]]];
        try assumption; try congruence.
      rewrite I1, I2, I3, I4, F1. repeat split.
Qed.

End Ticks.

Section Operations.

Context {ext : Externals}.

(** A dirty pathfinder with a destination: after any ticks that stop at
    their guards, the first tick that gets past them searches for that
    destination before anything else. *)
Lemma dirty_destination_is_searched (envs : list Env) (env : Env)
  (s : SkeldjsPathfinder) (d : Vector2.t) (g : Grid) :
  destination s = Some d ->
  _moved s = true ->
  none_acts envs s ->
  completion (guards env (ticks_through envs s)) = Normal true ->
  grid (at_recalculation env (ticks_through envs s)) = Some g ->
  destination (at_recalculation env (ticks_through envs s)) = Some d
  /\ emitted (effects (_ontick env (ticks_through envs s)))
     = recalculate_event env g (at_recalculation env (ticks_through envs s))
       :: emitted (effects (consumption env
                              (at_consumption env (ticks_through envs s))))
  /\ path (at_consumption env (ticks_through envs s))
     = Some (fst (search env g
                    (at_recalculation env (ticks_through envs s)))).
Proof.
  intros Hd Hm Hn Hb Hg.
  destruct (none_acts_frame envs s Hn) as [_ [I2 [_ [I4 _]]]].
  destruct (guards_frame env (ticks_through envs s)) as [F1 [_ [F3 _]]].
  split.
  - unfold at_recalculation. rewrite F1, I2. exact Hd.
  - apply due_tick_recalculates_first; try assumption.
    unfold recalculation_due, at_recalculation. rewrite F3, I4, Hm.
    reflexivity.
Qed.

(** X6.  [go] to a position with a truthy [x] always leads to a fresh
    search: whatever path was held and whether or not the pathfinder was
    paused, it is resumed, and after any ticks that stop at their guards
    the first tick that gets past them emits, before anything else, the
    recalculation notification of a search towards the new destination and
    consumes that fresh path. *)
Theorem go_is_searched_on_next_acting_tick (depth : nat) (env0 env : Env)
  (envs : list Env) (v : Vector2.t) (s s2 : SkeldjsPathfinder) (g : Grid) :
  ToBoolean (Vector2.x v) = true ->
  s2 = ticks_through envs (final (go (S depth) env0 (arg_vector v) s)) ->
  none_acts envs (final (go (S depth) env0 (arg_vector v) s)) ->
  completion (guards env s2) = Normal true ->
  grid (at_recalculation env s2) = Some g ->
  _paused s2 = false
  /\ destination (at_recalculation env s2) = Some (copy v)
  /\ emitted (effects (_ontick env s2))
     = recalculate_event env g (at_recalculation env s2)
       :: emitted (effects (consumption env (at_consumption env s2)))
  /\ path (at_consumption env s2)
     = Some (fst (search env g (at_recalculation env s2))).
Proof.
  intros Ht Hs2 Hn Hb Hg.
  rewrite (go_truthy depth env0 (arg_vector v) (Vector2.x v) (Vector2.y v) s
             eq_refl eq_refl Ht) in Hs2, Hn.
  cbn [final] in Hs2, Hn. subst s2.
  destruct (none_acts_frame envs _ Hn) as [_ [_ [_ [_ [I5 _]]]]].
  split; [rewrite I5; reflexivity |].
  apply (dirty_destination_is_searched envs env _ (copy v) g);
    try assumption; reflexivity.
Qed.

(** X7.  When the followed player moves, nothing is emitted at that moment;
    the destination becomes a copy of the reported position and the dirty
    flag is set, so that, after any ticks that stop at their guards, the
    first tick that gets past them searches towards the new position
    before anything else (also while paused). *)
Theorem followed_move_is_searched_on_next_acting_tick (owner : PlayerData)
  (pos : Vector2.t) (env : Env) (envs : list Env)
  (s s2 : SkeldjsPathfinder) (g : Grid) :
  is_following s owner = true ->
  s2 = ticks_through envs (final (_handleMove owner pos s)) ->
  none_acts envs (final (_handleMove owner pos s)) ->
  completion (guards env s2) = Normal true ->
  grid (at_recalculation env s2) = Some g ->
  effects (_handleMove owner pos s) = []
  /\ destination (at_recalculation env s2) = Some (copy pos)
  /\ emitted (effects (_ontick env s2))
     = recalculate_event env g (at_recalculation env s2)
       :: emitted (effects (consumption env (at_consumption env s2)))
  /\ path (at_consumption env s2)
     = Some (fst (search env g (at_recalculation env s2))).
Proof.
  intros Hf Hs2 Hn Hb Hg.
  assert (Hmv : _handleMove owner pos s
                = {| completion := Normal tt;
                     final := set_moved true
                                (set_destination (Some (copy pos)) s);
                     effects := [] |}).
  { unfold _handleMove. unfold_handlers. rewrite Hf. reflexivity. }
  rewrite Hmv in Hs2, Hn |- *. cbn [final effects] in *. subst s2.
  split; [reflexivity |].
  apply (dirty_destination_is_searched envs env _ (copy pos) g);
    try assumption; reflexivity.
Qed.

(** X8.  [follow] emits nothing and sets no destination.  Once it has
    resolved a spawned player, exactly the move reports of that player
    steer the pathfinder: a report from the followed player stores a copy
    of the position and sets the dirty flag, a report from anyone else
    changes nothing. *)
Theorem follow_then_move_reports (env : Env) (player : PlayerDataResolvable)
  (resolved q : PlayerData) (pos : Vector2.t) (s : SkeldjsPathfinder) :
  resolve env (arg_resolvable player) = Some resolved ->
  spawned resolved = true ->
  follow env player s
  = {| completion := Normal tt;
       final := set_following (Some resolved) s;
       effects := [] |}
  /\ _handleMove q pos (final (follow env player s))
     = {| completion := Normal tt;
          final :=
            (if same_player q resolved
             then set_moved true
                    (set_destination (Some (copy pos))
                       (set_following (Some resolved) s))
             else set_following (Some resolved) s);
          effects := [] |}.
Proof.
  intros Hr Hs.
  assert (Hfo : follow env player s
                = {| completion := Normal tt;
                     final := set_following (Some resolved) s;
                     effects := [] |}).
  { unfold follow. rewrite Hr, Hs. reflexivity. }
  rewrite Hfo. split; [reflexivity |]. cbn [final].
  unfold _handleMove, is_following. unfold_handlers. cbn.
  destruct (same_player q resolved); reflexivity.
Qed.

(** X9.  [follow] of a player the room does not resolve, or that has not
    spawned, changes nothing: the player followed before stays followed. *)
Theorem follow_unavailable_keeps_following (env : Env)
  (player : PlayerDataResolvable) (s : SkeldjsPathfinder) :
  resolve env (arg_resolvable player) = None
  \/ (exists resolved,
        resolve env (arg_resolvable player) = Some resolved
        /\ spawned resolved = false) ->
  follow env player s
  = {| completion := Normal tt; final := s; effects := [] |}.
Proof.
  intros [H | [resolved [H Hs]]]; unfold follow; rewrite H;
    [| rewrite Hs]; reflexivity.
Qed.

(** X10.  When the followed player leaves, the pathfinder stops as by
    [stop()]: the destination is cleared, whoever set it, the dirty flag is
    set, and exactly one stop with [reached = false] and no end is emitted;
    the path stays in its field.  It also stops following, so later move
    reports no longer steer it.  The departure of anyone else, or of anyone
    while nobody is followed, changes nothing. *)
Theorem leave_of_followed_player (env : Env) (player : PlayerData)
  (s : SkeldjsPathfinder) :
  (if is_following s player
   then completion (_handleLeave env player s) = Normal tt
        /\ emitted (effects (_handleLeave env player s))
           = [pathfinding_stop false]
        /\ final (_handleLeave env player s)
           = set_following None (set_moved true (set_destination None s))
        /\ forall (q : PlayerData) (pos : Vector2.t),
             _handleMove q pos (final (_handleLeave env player s))
             = {| completion := Normal tt;
                  final := final (_handleLeave env player s);
                  effects := [] |}
   else _handleLeave env player s
        = {| completion := Normal tt; final := s; effects := [] |}).
Proof.
  destruct (is_following s player) eqn:Hf.
  - assert (Hl : _handleLeave env player s
                 = {| completion := Normal tt;
                      final := set_following None
                                 (set_moved true (set_destination None s));
                      effects := [Emit (pathfinding_stop false)
                                       (set_moved true
                                          (set_destination None s))] |}).
    { unfold _handleLeave. unfold_handlers. rewrite Hf. reflexivity. }
    rewrite Hl. cbn [completion final effects].
    split; [reflexivity |]. split; [reflexivity |]. split; [reflexivity |].
    intros q pos. reflexivity.
  - unfold _handleLeave. unfold_handlers. rewrite Hf. reflexivity.
Qed.

(** X11.  [stop()] clears the destination, sets the dirty flag and emits
    exactly one stop with [reached = false]; it keeps the path in its field
    and keeps following.  So the next move report of the followed player
    gives the stopped pathfinder a destination again. *)
Theorem stop_keeps_following (env : Env) (owner : PlayerData)
  (pos : Vector2.t) (s : SkeldjsPathfinder) :
  is_following s owner = true ->
  completion (stop env s) = Normal tt
  /\ emitted (effects (stop env s)) = [pathfinding_stop false]
  /\ final (stop env s) = set_moved true (set_destination None s)
  /\ final (_handleMove owner pos (final (stop env s)))
     = set_moved true (set_destination (Some (copy pos)) s).
Proof.
  intros Hf.
  split; [reflexivity |]. split; [reflexivity |]. split; [reflexivity |].
  unfold _handleMove, stop. unfold_handlers. cbn.
  unfold is_following in *. cbn. rewrite Hf. reflexivity.
Qed.

(** X12.  [pause()] followed by [start()] takes an unpaused pathfinder back
    to where it was: the two calls emit a pause and a start notification
    (the latter with the current destination) and change no field, so the
    next tick runs as if neither had been called. *)
Theorem pause_then_start_round_trip (env1 env2 env : Env)
  (s : SkeldjsPathfinder) :
  _paused s = false ->
  final (start env2 (final (pause env1 s))) = s
  /\ emitted (effects (pause env1 s)
              ++ effects (start env2 (final (pause env1 s))))
     = [pathfinding_pause; pathfinding_start (destination s)]
  /\ _ontick env (final (start env2 (final (pause env1 s)))) = _ontick env s.
Proof.
  intros Hp.
  assert (H : final (start env2 (final (pause env1 s))) = s).
  { destruct s; cbn in Hp; subst. reflexivity. }
  split; [exact H |]. split; [reflexivity |]. rewrite H. reflexivity.
Qed.

(** X13.  A forced [recalculate()] needs a loaded grid.  Before the first
    load it throws at [this.grid.reset()] with nothing changed and nothing
    emitted.  On a loaded grid, with a position and a destination that both
    have a nearest cell on the reset grid, it returns, replaces the path by
    the result of the search between those two cells, emits the one
    recalculation notification, moves nobody, and keeps the destination
    and, unlike the recalculation of a tick, the dirty flag. *)
Theorem recalculate_needs_grid (env : Env) (s : SkeldjsPathfinder) :
  (grid s = None ->
   recalculate env s = {| completion := Throw; final := s; effects := [] |})
  /\ (forall g : Grid,
        grid s = Some g ->
        nearest_cell (Grid_reset g) (get_position env) <> None ->
        nearest_cell (Grid_reset g) (destination s) <> None ->
        completion (recalculate env s) = Normal tt
        /\ path (final (recalculate env s)) = Some (fst (search env g s))
        /\ emitted (effects (recalculate env s))
           = [engine_recalculate
                (List.map (actual_of (snd (search env g s)))
                          (fst (search env g s)))]
        /\ movements (effects (recalculate env s)) = []
        /\ destination (final (recalculate env s)) = destination s
        /\ _moved (final (recalculate env s)) = _moved s).
Proof.
  split.
  - apply recalculate_unloaded.
  - intros g Hg _ _.
    rewrite (recalculate_loaded env s g Hg). cbn [completion final effects].
    repeat split.
Qed.

(** X14.  [vent] does nothing in a room without a map, and nothing on map
    [0] either, which [!this.map] takes for a missing map: whatever the vent
    table holds, no destination is set and nothing is emitted. *)
Theorem vent_ignores_map_zero (depth : nat) (env : Env) (ventid : Z)
  (s : SkeldjsPathfinder) :
  get_map env = None \/ get_map env = Some 0 ->
  vent depth env ventid s
  = {| completion := Normal tt; final := s; effects := [] |}.
Proof. intros [H | H]; unfold vent; rewrite H; reflexivity. Qed.

(** X15.  On any other map, [vent] to a vent of the table whose position has
    a truthy [x] is [go] to that position: the destination becomes a copy
    of it, the dirty flag is set, the pathfinder is resumed, and one start
    notification carries the destination. *)
Theorem vent_goes_to_vent_position (depth : nat) (env : Env) (m ventid : Z)
  (coords : Vector2.t) (s : SkeldjsPathfinder) :
  get_map env = Some m ->
  m <> 0 ->
  MapVentData m ventid = Some coords ->
  ToBoolean (Vector2.x coords) = true ->
  vent (S depth) env ventid s
  = {| completion := Normal tt;
       final := gone_to coords s;
       effects := go_trace coords s |}.
Proof.
  intros Hm Hz Hv Ht. unfold vent. rewrite Hm.
  apply Z.eqb_neq in Hz. rewrite Hz, Hv.
  unfold bind at 1. cbn [or_throw ret].
  unfold bind at 1.
  rewrite (go_truthy depth env (arg_vector coords)
             (Vector2.x coords) (Vector2.y coords) s eq_refl eq_refl Ht).
  reflexivity.
Qed.

(** X16.  [vent] to a vent the table of the map does not hold throws (the
    position is read off [undefined]); nothing is changed or emitted. *)
Theorem vent_unknown_throws (depth : nat) (env : Env) (m ventid : Z)
  (s : SkeldjsPathfinder) :
  get_map env = Some m ->
  m <> 0 ->
  MapVentData m ventid = None ->
  vent depth env ventid s
  = {| completion := Throw; final := s; effects := [] |}.
Proof.
  intros Hm Hz Hv. unfold vent. rewrite Hm.
  apply Z.eqb_neq in Hz. rewrite Hz, Hv. reflexivity.
Qed.

(** X17.  [go] with a player (or client id) that the room resolves to a
    spawned player goes to where that player stands: when that position has
    a truthy [x], the destination becomes a copy of it, the dirty flag is
    set, the pathfinder is resumed and the start notification carries the
    destination. *)
Theorem go_to_player_position (depth : nat) (env : Env)
  (r : PlayerDataResolvable) (resolved : PlayerData)
  (tr : CustomNetworkTransform) (pos : Vector2.t) (s : SkeldjsPathfinder) :
  resolve env (arg_resolvable r) = Some resolved ->
  spawned resolved = true ->
  transform resolved = Some tr ->
  position tr = Some pos ->
  ToBoolean (Vector2.x pos) = true ->
  go (S (S depth)) env (arg_resolvable r) s
  = {| completion := Normal None;
       final := gone_to pos s;
       effects := go_trace pos s |}.
Proof.
  intros Hr Hs Htr Hpos Ht.
  cbn [go arg_x arg_y ToBoolean_opt]. rewrite Hr, Hs, Htr.
  unfold bind at 1. cbn [or_throw ret].
  rewrite Hpos. unfold bind at 1. cbn [or_throw ret].
  rewrite Ht. reflexivity.
Qed.

(** X18.  [go] with a player the room does not resolve, or that has not
    spawned, returns without a trace: no destination, no dirty flag, no
    notification, and the pause flag stays. *)
Theorem go_to_unavailable_player (depth : nat) (env : Env)
  (r : PlayerDataResolvable) (s : SkeldjsPathfinder) :
  resolve env (arg_resolvable r) = None
  \/ (exists resolved,
        resolve env (arg_resolvable r) = Some resolved
        /\ spawned resolved = false) ->
  go (S depth) env (arg_resolvable r) s
  = {| completion := Normal None; final := s; effects := [] |}.
Proof.
  intros [H | [resolved [H Hs]]]; cbn [go arg_x ToBoolean_opt];
    rewrite H; [| rewrite Hs]; reflexivity.
Qed.

(** What [go] never touches, whatever it is called with and however it
    ends. *)
Lemma go_frame (depth : nat) (env : Env) :
  forall (pos : GoArg) (s : SkeldjsPathfinder),
    grid (final (go depth env pos s)) = grid s
    /\ path (final (go depth env pos s)) = path s
    /\ following (final (go depth env pos s)) = following s
    /\ _tick (final (go depth env pos s)) = _tick s
    /\ recalculateEvery (final (go depth env pos s)) = recalculateEvery s.
Proof.
  induction depth as [| depth IH]; intros pos s; [repeat split |].
  cbn [go].
  destruct (ToBoolean_opt (arg_x pos)).
  - destruct (arg_x pos), (arg_y pos); run_handler; repeat split.
  - destruct pos as [r | v | n].
    + destruct (resolve env (arg_resolvable r)) as [resolved |];
        [| repeat split].
      destruct (spawned resolved); [| repeat split].
      destruct (transform resolved) as [tr |]; cbn; [| repeat split].
      destruct (position tr) as [p |]; cbn; [| repeat split].
      specialize (IH (arg_vector p) s).
      destruct (go depth env (arg_vector p) s). exact IH.
    + destruct (resolve env (arg_vector v)) as [resolved |];
        [| repeat split].
      destruct (spawned resolved); [| repeat split].
      destruct (transform resolved) as [tr |]; cbn; [| repeat split].
      destruct (position tr) as [p |]; cbn; [| repeat split].
      specialize (IH (arg_vector p) s).
      destruct (go depth env (arg_vector p) s). exact IH.
    + run_handler; repeat split; congruence.
Qed.

Lemma vent_frame (depth : nat) (env : Env) (ventid : Z)
  (s : SkeldjsPathfinder) :
  grid (final (vent depth env ventid s)) = grid s
  /\ _tick (final (vent depth env ventid s)) = _tick s
  /\ recalculateEvery (final (vent depth env ventid s)) = recalculateEvery s.
Proof.
  unfold vent. destruct (get_map env) as [m |]; [| repeat split].
  destruct (m =? 0); [repeat split |].
  destruct (MapVentData m ventid) as [coords |]; [| repeat split].
  destruct (go_frame depth env (arg_vector coords) s)
    as [H1 [_ [_ [H4 H5]]]].
  unfold bind, or_throw, ret. cbv beta iota.
  destruct (go depth env (arg_vector coords) s) as [[a |] f e];
    cbn [final] in *; repeat split; assumption.
Qed.

(** The consumption step leaves the grid and the counter. *)
Lemma consumption_frame (env : Env) (s : SkeldjsPathfinder) (g : Grid)
  (p : list Node.t) (here : Vector2.t) :
  grid s = Some g ->
  path s = Some p ->
  get_position env = Some here ->
  grid (final (consumption env s)) = grid s
  /\ _tick (final (consumption env s)) = _tick s
  /\ recalculateEvery (final (consumption env s)) = recalculateEvery s.
Proof.
  intros Hg Hp Hh. destruct (_paused s) eqn:Hpa.
  - rewrite (consumption_paused env s Hpa). repeat split.
  - destruct p as [| next [| n rest]].
    + rewrite (consumption_empty env s Hpa Hp). repeat split.
    + rewrite (consumption_last env s g here next Hpa Hp Hg Hh).
      repeat split.
    + rewrite (consumption_step env s g here next n rest Hpa Hp Hg Hh).
      repeat split.
Qed.

(** Every tick counts, whatever else it does and however it ends; no tick
    changes the configuration, and no tick unloads the grid. *)
Lemma ontick_frame (env : Env) (s : SkeldjsPathfinder) :
  _tick (final (_ontick env s)) = increment (_tick s)
  /\ recalculateEvery (final (_ontick env s)) = recalculateEvery s
  /\ (grid s <> None -> grid (final (_ontick env s)) <> None).
Proof.
  destruct (guards_frame env s) as [_ [_ [_ [_ [_ [F6 F7]]]]]].
  assert (Hgg : grid s <> None -> grid (final (guards env s)) <> None).
  { intros H. rewrite (guards_grid env s).
    destruct (grid_loaded_now env s); [discriminate | exact H]. }
  destruct (grid_load_fails env s) eqn:Hf.
  - rewrite (ontick_throws env s Hf). cbn [final]. repeat split. exact (fun H => H).
  - destruct (guards_return env s Hf) as [[|] Hb].
    + destruct (guards_pass env s Hb) as [_ [g0 [Hg0 _]]].
      destruct (consumption_ready env s Hb) as [g [p [here [Hg [Hp Hh]]]]].
      destruct (consumption_frame env _ g p here Hg Hp Hh) as [C1 [C2 C3]].
      destruct (recalculation_keeps env _ g0 Hg0) as [_ [_ [K3 K4]]].
      rewrite (ontick_acts env s Hb). cbn [final].
      rewrite C1, C2, C3, Hg. unfold at_consumption, at_recalculation.
      rewrite K3, K4, F6, F7. repeat split. discriminate.
    + rewrite (ontick_skips env s Hb). cbn [final].
      rewrite F6, F7. repeat split. exact Hgg.
Qed.

(** One operation: the counter moves on a tick only, the configuration
    never, and a loaded grid stays loaded. *)
Lemma after_frame (env : Env) (op : Operation) (s : SkeldjsPathfinder) :
  _tick (after env op s)
  = match op with
    | op_tick => increment (_tick s)
    | _ => _tick s
    end
  /\ recalculateEvery (after env op s) = recalculateEvery s
  /\ (grid s <> None -> grid (after env op s) <> None).
Proof.
  destruct op; cbn [after].
  - apply ontick_frame.
  - destruct (go_frame depth env pos s) as [H1 [_ [_ [H4 H5]]]].
    rewrite H1, H4, H5. repeat split. exact (fun H => H).
  - destruct (vent_frame depth env ventid s) as [H1 [H4 H5]].
    rewrite H1, H4, H5. repeat split. exact (fun H => H).
  - unfold follow. destruct (resolve env _) as [resolved |];
      [destruct (spawned resolved) |]; repeat split; exact (fun H => H).
  - repeat split; exact (fun H => H).
  - repeat split; exact (fun H => H).
  - repeat split; exact (fun H => H).
  - destruct (grid s) as [g |] eqn:Hg.
    + rewrite (recalculate_loaded env s g Hg). repeat split.
      intros _. discriminate.
    + rewrite (recalculate_unloaded env s Hg). repeat split.
      intros H. congruence.
  - unfold _handleMove. unfold_handlers.
    destruct (is_following s owner); repeat split; exact (fun H => H).
  - unfold _handleLeave. unfold_handlers.
    destruct (is_following s player); repeat split; exact (fun H => H).
Qed.

(** With a grid in place the tick handler returns. *)
Lemma ontick_returns_when_loaded (env : Env) (s : SkeldjsPathfinder) :
  grid s <> None -> completion (_ontick env s) = Normal tt.
Proof.
  intros Hg.
  assert (Hf : grid_load_fails env s = false).
  { unfold grid_load_fails. destruct (grid s); [| contradiction].
    destruct (get_map env); apply andb_false_r. }
  destruct (guards_return env s Hf) as [[|] Hb].
  - rewrite (ontick_acts env s Hb). cbn [completion].
    destruct (consumption_ready env s Hb) as [g [p [here [H1 [H2 H3]]]]].
    exact (consumption_completes env _ g p here H1 H2 H3).
  - rewrite (ontick_skips env s Hb). reflexivity.
Qed.

(** X19.  The grid is loaded at most once.  Once a grid is in place, no
    tick, public operation or client report removes it, in whatever worlds
    they run, so the data file is never read again and no later tick
    throws. *)
Theorem loaded_grid_stays_loaded (steps : list (Env * Operation))
  (env : Env) (s : SkeldjsPathfinder) :
  grid s <> None ->
  grid (after_each steps s) <> None
  /\ grid_loaded_now env (after_each steps s) = None
  /\ completion (_ontick env (after_each steps s)) = Normal tt.
Proof.
  revert s. induction steps as [| [e op] steps IH]; intros s Hg.
  - cbn [after_each]. split; [exact Hg |].
    split; [| exact (ontick_returns_when_loaded env s Hg)].
    unfold grid_loaded_now. destruct (grid s); [| contradiction].
    destruct (js_mod _ _ =? 0); [destruct (get_map env) |]; reflexivity.
  - cbn [after_each]. apply IH.
    destruct (after_frame e op s) as [_ [_ H]]. exact (H Hg).
Qed.

(** X20.  The tick counter belongs to the tick handler: every tick
    increments it, also a tick that returns early or throws, and no public
    operation or client report touches it.  Nothing ever changes the
    configured recalculation period. *)
Theorem only_ticks_count (steps : list (Env * Operation))
  (s : SkeldjsPathfinder) :
  _tick (after_each steps s)
  = fold_left (fun t step => match snd step with
                             | op_tick => increment t
                             | _ => t
                             end) steps (_tick s)
  /\ recalculateEvery (after_each steps s) = recalculateEvery s.
Proof.
  revert s. induction steps as [| [e op] steps IH]; intros s.
  - split; reflexivity.
  - cbn [after_each fold_left snd].
    destruct (after_frame e op s) as [H1 [H2 _]].
    destruct (IH (after e op s)) as [I1 I2].
    rewrite I1, I2, H1, H2. split; reflexivity.
Qed.

Lemma ticks_from (envs : list Env) :
  forall s : SkeldjsPathfinder,
    0 <= _tick s ->
    _tick s + Z.of_nat (length envs) <= 2 ^ 53 ->
    _tick (ticks_through envs s) = _tick s + Z.of_nat (length envs).
Proof.
  induction envs as [| env envs IH]; intros s H0 Hb.
  - cbn. lia.
  - cbn [ticks_through length] in *.
    destruct (ontick_frame env s) as [Ht _].
    assert (Hi : increment (_tick s) = _tick s + 1).
    { unfold increment. destruct (Z.ltb_spec (_tick s) (2 ^ 53)); lia. }
    rewrite IH; rewrite Ht, Hi; lia.
Qed.

(** X21.  A new pathfinder acts on every sixth tick only: its [n]-th tick
    finds the counter at [n - 1], and when [n] is no multiple of
    [MovementInterval] that tick returns having emitted nothing, called
    nobody and changed nothing but the counter, in any world. *)
Theorem new_pathfinder_cadence (config : option Z) (envs : list Env)
  (env : Env) :
  Z.of_nat (length envs) < 2 ^ 53 ->
  js_mod (Z.of_nat (length envs) + 1) MovementInterval <> 0 ->
  _tick (ticks_through envs (new_SkeldjsPathfinder config))
  = Z.of_nat (length envs)
  /\ _ontick env (ticks_through envs (new_SkeldjsPathfinder config))
     = {| completion := Normal tt;
          final := set_tick (Z.of_nat (length envs) + 1)
                     (ticks_through envs (new_SkeldjsPathfinder config));
          effects := [] |}.
Proof.
  intros Hb Hc.
  assert (Ht : _tick (ticks_through envs (new_SkeldjsPathfinder config))
               = Z.of_nat (length envs)).
  { rewrite ticks_from; cbn [_tick new_SkeldjsPathfinder]; lia. }
  split; [exact Ht |].
  assert (Hi : increment (_tick (ticks_through envs
                                   (new_SkeldjsPathfinder config)))
               = Z.of_nat (length envs) + 1).
  { rewrite Ht. unfold increment.
    destruct (Z.ltb_spec (Z.of_nat (length envs)) (2 ^ 53)); lia. }
  assert (Hg : js_mod (increment (_tick (ticks_through envs
                                          (new_SkeldjsPathfinder config))))
                      MovementInterval <> 0)
    by (rewrite Hi; exact Hc).
  unfold _ontick.
  rewrite (bind_normal _ _ _ _ _ _ (guards_off_cadence env _ Hg)).
  rewrite Hi. reflexivity.
Qed.

Lemma ticks_keep_period (envs : list Env) :
  forall s : SkeldjsPathfinder,
    recalculateEvery (ticks_through envs s) = recalculateEvery s.
Proof.
  induction envs as [| env envs IH]; intros s; [reflexivity |].
  cbn [ticks_through]. rewrite IH.
  destruct (ontick_frame env s) as [_ [H _]]. exact H.
Qed.

End Operations.

Section Dead_ends.

Context {ext : Externals}.

(** C2 (as the code has it).  When a recalculation produces an empty path
    the handler pops nothing and moves nobody.

    Unless the pathfinder is paused, that same tick drops the destination
    and the path, both become absent, and no stop or end notification is
    emitted; every later tick, in whatever world, emits nothing and leaves
    both absent.

    While paused, the destination is kept and the empty path is held.
    Ticks that stop at their guards change nothing of that, and the held
    empty path is not "no path": the next tick that gets past its guards
    recalculates exactly when its counter is a multiple of the
    recalculation period, and otherwise does nothing at all. *)
Theorem empty_path_outcome (env : Env) (s : SkeldjsPathfinder) (g : Grid) :
  completion (guards env s) = Normal true ->
  grid (at_recalculation env s) = Some g ->
  recalculation_due (at_recalculation env s) = true ->
  fst (search env g (at_recalculation env s)) = [] ->
  completion (_ontick env s) = Normal tt
  /\ emitted (effects (_ontick env s)) = [engine_recalculate []]
  /\ movements (effects (_ontick env s)) = []
  /\ (if _paused s
      then destination (final (_ontick env s)) = destination s
           /\ path (final (_ontick env s)) = Some []
           /\ forall (envs : list Env) (env' : Env)
                     (s' : SkeldjsPathfinder),
               s' = ticks_through envs (final (_ontick env s)) ->
               none_acts envs (final (_ontick env s)) ->
               completion (guards env' s') = Normal true ->
               tick_effects envs (final (_ontick env s)) = []
               /\ destination s' = destination s
               /\ path s' = Some []
               /\ recalculation_due (at_recalculation env' s')
                  = (js_mod (increment (_tick s'))
                            (period (recalculateEvery s)) =? 0)
               /\ (exists g' : Grid,
                     grid (at_recalculation env' s') = Some g'
                     /\ emitted (effects (_ontick env' s'))
                        = (if js_mod (increment (_tick s'))
                                     (period (recalculateEvery s)) =? 0
                           then [recalculate_event env' g'
                                   (at_recalculation env' s')]
                           else []))
               /\ movements (effects (_ontick env' s')) = []
               /\ destination (final (_ontick env' s')) = destination s
      else destination (final (_ontick env s)) = None
           /\ path (final (_ontick env s)) = None
           /\ forall envs : list Env,
               tick_effects envs (final (_ontick env s)) = []
               /\ destination (ticks_through envs (final (_ontick env s)))
                  = None
               /\ path (ticks_through envs (final (_ontick env s))) = None).
Proof.
  intros Hg Hgr Hdue Hsearch.
  destruct (at_consumption_keeps env s Hg) as [Hpa Hd].
  assert (Hfin : at_consumption env s
                 = set_moved false (recalculated env g (at_recalculation env s))).
  { unfold at_consumption.
    rewrite (recalculation_loaded env _ g Hgr), Hdue. reflexivity. }
  assert (Heff : effects (recalculation env (at_recalculation env s))
                 = recalculate_trace env g (at_recalculation env s)).
  { rewrite (recalculation_loaded env _ g Hgr), Hdue. reflexivity. }
  assert (Hp : path (at_consumption env s) = Some []).
  { rewrite Hfin. cbn. rewrite Hsearch. reflexivity. }
  assert (Hm : _moved (at_consumption env s) = false)
    by (rewrite Hfin; reflexivity).
  assert (Hk : recalculateEvery (at_consumption env s) = recalculateEvery s).
  { rewrite Hfin. cbn. unfold at_recalculation.
    destruct (guards_frame env s) as [_ [_ [_ [_ [_ [H _]]]]]]. exact H. }
  rewrite (ontick_acts env s Hg), Heff.
  destruct (_paused s) eqn:Hps.
  - rewrite (consumption_paused env _ Hpa).
    cbn [completion final effects]. rewrite app_nil_r.
    rewrite emitted_recalculate_trace, Hsearch.
    split; [reflexivity |]. split; [reflexivity |]. split; [reflexivity |].
    split; [exact Hd |]. split; [exact Hp |].
    intros envs env' s' Hs' Hn Hb'.
    destruct (none_acts_frame envs _ Hn) as [N1 [N2 [N3 [N4 [N5 _]]]]].
    rewrite <- Hs' in N2, N3, N4, N5.
    assert (Hk' : recalculateEvery s' = recalculateEvery s)
      by (rewrite Hs', ticks_keep_period; exact Hk).
    destruct (guards_frame env' s') as [F1 [F2 [F3 [F4 [_ [F6 F7]]]]]].
    destruct (guards_pass env' s' Hb') as [_ [g' [Hg' _]]].
    destruct (at_consumption_keeps env' s' Hb') as [Hpa' Hd'].
    assert (Hdue' : recalculation_due (at_recalculation env' s')
                    = (js_mod (increment (_tick s'))
                              (period (recalculateEvery s)) =? 0)).
    { unfold recalculation_due, at_recalculation.
      rewrite F2, F3, F6, F7, N3, N4, Hp, Hm, Hk'. reflexivity. }
    split; [exact N1 |].
    split; [rewrite N2; exact Hd |].
    split; [rewrite N3; exact Hp |].
    split; [exact Hdue' |].
    rewrite (ontick_acts env' s' Hb').
    rewrite (consumption_paused env' _ ltac:(rewrite Hpa', N5; exact Hpa)).
    cbn [final effects]. rewrite app_nil_r, Hd', N2, Hd.
    fold (at_recalculation env' s') in Hg'.
    rewrite (recalculation_loaded env' _ g' Hg'), Hdue'.
    split.
    + exists g'. split; [exact Hg' |].
      destruct (js_mod _ _ =? 0); reflexivity.
    + split; [| reflexivity].
      destruct (js_mod _ _ =? 0); reflexivity.
  - rewrite (consumption_empty env _ Hpa Hp).
    cbn [completion final effects]. rewrite app_nil_r.
    rewrite emitted_recalculate_trace, Hsearch.
    split; [reflexivity |]. split; [reflexivity |]. split; [reflexivity |].
    split; [reflexivity |]. split; [reflexivity |].
    intros envs.
    destruct (idle_without_destination envs
                (set_path None (set_destination None (at_consumption env s)))
                eq_refl) as [I1 [_ [I2 [I3 _]]]].
    split; [exact I1 |]. split; [exact I2 | exact I3].
Qed.

End Dead_ends.

(** * The claims on concrete runs *)

#[local] Existing Instance Field.externals.

Import Scenario.

(** C1, instance: bound for the cell next door, the tick pops the only
    cell of the fresh path and signals the arrival. *)
Lemma arrival_on_last_cell_witness :
  completion (guards calm bound_east) = Normal true
  /\ _paused bound_east = false
  /\ path (at_consumption calm bound_east) = Some [Node.mk 3 1]
  /\ completion (_ontick calm bound_east) = Normal tt
  /\ final (_ontick calm bound_east)
     = set_destination None
         (set_path (Some []) (at_consumption calm bound_east))
  /\ destination (final (_ontick calm bound_east)) = None
  /\ path (final (_ontick calm bound_east)) = Some []
  /\ filter is_stop_or_end (emitted (effects (_ontick calm bound_east)))
     = [pathfinding_stop true; pathfinding_end].
Proof.
  split; [vm_compute; reflexivity |].
  split; [vm_compute; reflexivity |].
  split; [vm_compute; reflexivity |].
  apply (arrival_on_last_cell calm bound_east (Node.mk 3 1));
    vm_compute; reflexivity.
Defined.

(** C1, where the claim fails: on the tick that pops the last cell the
    destination is cleared and the path is not; the field still holds the
    (emptied) sequence. *)
Lemma arrival_leaves_path_in_place :
  destination bound_east <> None
  /\ path (at_consumption calm bound_east) = Some [Node.mk 3 1]
  /\ destination (final (_ontick calm bound_east)) = None
  /\ path (final (_ontick calm bound_east)) <> None.
Proof. vm_compute. repeat split; congruence. Qed.

(** C2, instances: bound for a cell behind the wall.  Running: the
    destination is dropped and the seven ticks that follow do nothing.
    Paused, with period 7: the empty path is held at tick 6, ticks 7 to 11
    stop at their guards, and tick 12, the next to act, does not
    recalculate. *)
Lemma empty_path_outcome_witness :
  completion (guards calm bound_west) = Normal true
  /\ grid (at_recalculation calm bound_west) = Some 0%nat
  /\ recalculation_due (at_recalculation calm bound_west) = true
  /\ fst (search calm 0%nat (at_recalculation calm bound_west)) = []
  /\ completion (_ontick calm bound_west) = Normal tt
  /\ emitted (effects (_ontick calm bound_west)) = [engine_recalculate []]
  /\ movements (effects (_ontick calm bound_west)) = []
  /\ destination (final (_ontick calm bound_west)) = None
  /\ path (final (_ontick calm bound_west)) = None
  /\ tick_effects Walk.week (final (_ontick calm bound_west)) = []
  /\ _paused Walk.stuck = true
  /\ completion (guards calm Walk.stuck) = Normal true
  /\ fst (search calm 0%nat (at_recalculation calm Walk.stuck)) = []
  /\ destination (final (_ontick calm Walk.stuck)) = Some (at_xy (-2) 1)
  /\ path (final (_ontick calm Walk.stuck)) = Some []
  /\ none_acts (repeat calm 5) (final (_ontick calm Walk.stuck))
  /\ completion
       (guards calm
          (ticks_through (repeat calm 5) (final (_ontick calm Walk.stuck))))
     = Normal true
  /\ _tick (ticks_through (repeat calm 5) (final (_ontick calm Walk.stuck)))
     = 11
  /\ emitted
       (effects
          (_ontick calm
             (ticks_through (repeat calm 5)
                (final (_ontick calm Walk.stuck)))))
     = [].
Proof.
  split; [vm_compute; reflexivity |].
  split; [vm_compute; reflexivity |].
  split; [vm_compute; reflexivity |].
  split; [vm_compute; reflexivity |].
  pose proof (empty_path_outcome calm bound_west 0%nat) as H.
  destruct H as [H1 [H2 [H3 H4]]]; try (vm_compute; reflexivity).
  change (_paused bound_west) with false in H4.
  destruct H4 as [H4 [H5 H6]].
  split; [exact H1 |]. split; [exact H2 |]. split; [exact H3 |].
  split; [exact H4 |]. split; [exact H5 |].
  split; [exact (proj1 (H6 Walk.week)) |].
  assert (Hb : completion (guards calm Walk.stuck) = Normal true)
    by (vm_compute; reflexivity).
  assert (Hs : fst (search calm 0%nat (at_recalculation calm Walk.stuck)) = [])
    by (vm_compute; reflexivity).
  split; [vm_compute; reflexivity |].
  split; [exact Hb |]. split; [exact Hs |].
  pose proof (empty_path_outcome calm Walk.stuck 0%nat Hb) as K.
  destruct K as [_ [_ [_ K4]]]; try (vm_compute; reflexivity).
  change (_paused Walk.stuck) with true in K4.
  destruct K4 as [K4 [K5 K6]].
  split; [rewrite K4; vm_compute; reflexivity |].
  split; [exact K5 |].
  assert (Hn : none_acts (repeat calm 5) (final (_ontick calm Walk.stuck)))
    by (vm_compute; repeat split; discriminate).
  assert (Hb' : completion
                  (guards calm
                     (ticks_through (repeat calm 5)
                        (final (_ontick calm Walk.stuck))))
                = Normal true) by (vm_compute; reflexivity).
  split; [exact Hn |]. split; [exact Hb' |].
  split; [vm_compute; reflexivity |].
  destruct (K6 (repeat calm 5) calm _ eq_refl Hn Hb')
    as [_ [_ [_ [_ [[g' [_ Q]] _]]]]].
  rewrite Q. vm_compute. reflexivity.
Defined.

(** C2, where the claim fails: the goal is unreachable, the recalculation
    returns the empty path, and the same tick gives the destination up;
    the next acting tick recalculates nothing. *)
Lemma unreachable_goal_is_abandoned :
  destination bound_west = Some (at_xy (-2) 1)
  /\ _paused bound_west = false
  /\ fst (search calm 0%nat (at_recalculation calm bound_west)) = []
  /\ destination (final (_ontick calm bound_west)) = None
  /\ effects (_ontick calm
               (after_all calm (ticks 6) bound_west)) = [].
Proof. vm_compute. repeat split. Qed.

(** C3, instance: a forced recalculation on a loaded grid. *)
Lemma recalculation_order_witness :
  grid dirty_loaded = Some 2%nat
  /\ effects (recalculate calm dirty_loaded)
     = [ Call_reset;
         Call_getShortestPath (Some (Node.mk 1 1)) (Some (Node.mk 5 5));
         Emit (engine_recalculate [at_xy 5 1; at_xy 5 5])
              (recalculated calm 2%nat dirty_loaded) ]
  /\ _moved (final (recalculate calm dirty_loaded)) = _moved dirty_loaded.
Proof.
  split; [vm_compute; reflexivity |].
  pose proof (recalculation_order calm dirty_loaded 2%nat) as H.
  destruct H as [_ [H2 [H3 [_ [H5 _]]]]]; try (vm_compute; reflexivity).
  split; [exact H2 | rewrite H3; exact H5].
Defined.

(** C3, where the claim fails: the forced recalculation leaves the dirty
    flag set, and in a tick the listeners are notified while the flag is
    still set; it is cleared afterwards. *)
Lemma dirty_flag_outlives_notification :
  _moved dirty_loaded = true
  /\ _moved (final (recalculate calm dirty_loaded)) = true
  /\ _moved bound_corner = true
  /\ dirty_when_notified (effects (_ontick calm bound_corner)) = [true]
  /\ _moved (final (_ontick calm bound_corner)) = false.
Proof. vm_compute. repeat split. Qed.

(** C4, the failing input: [go({x: 0, y: 4})] on a new pathfinder. *)
Lemma go_ignores_falsy_x_witness :
  ToBoolean (Vector2.x (at_xy 0 4)) = false
  /\ resolve calm (arg_vector (at_xy 0 4)) = None
  /\ go 8 calm (arg_vector (at_xy 0 4)) (new_SkeldjsPathfinder None)
     = {| completion := Normal None;
          final := new_SkeldjsPathfinder None;
          effects := [] |}.
Proof.
  split; [vm_compute; reflexivity |].
  split; [vm_compute; reflexivity |].
  apply (go_ignores_falsy_x 7 calm (at_xy 0 4)); vm_compute; reflexivity.
Defined.

(** C5, instance: right after [go], and after the first acting tick. *)
Lemma destination_and_path_witness :
  reachable (after_all calm [go_to 3 4] (new_SkeldjsPathfinder None))
  /\ destination (after_all calm [go_to 3 4] (new_SkeldjsPathfinder None))
     = Some (at_xy 3 4)
  /\ path (after_all calm [go_to 3 4] (new_SkeldjsPathfinder None)) = None
  /\ _moved (after_all calm [go_to 3 4] (new_SkeldjsPathfinder None)) = true
  /\ reachable bound_corner
  /\ completion (guards calm bound_corner) = Normal true
  /\ destination (final (_ontick calm bound_corner)) = Some (at_xy 3 4)
  /\ path (final (_ontick calm bound_corner)) <> None.
Proof.
  assert (Hreach : forall ops s,
             reachable s -> reachable (after_all calm ops s)).
  { induction ops as [| op ops IH]; intros s Hs; [exact Hs |].
    cbn [after_all]. apply IH, reachable_after, Hs. }
  assert (Hr1 : reachable
                  (after_all calm [go_to 3 4] (new_SkeldjsPathfinder None)))
    by apply Hreach, reachable_new.
  assert (Hr2 : reachable bound_corner) by apply Hreach, reachable_new.
  split; [exact Hr1 |].
  split; [vm_compute; reflexivity |].
  split; [vm_compute; reflexivity |].
  split.
  { apply (proj1 (destination_and_path _ Hr1));
      [vm_compute; discriminate | vm_compute; reflexivity]. }
  split; [exact Hr2 |].
  split; [vm_compute; reflexivity |].
  split; [vm_compute; reflexivity |].
  apply (proj2 (destination_and_path _ Hr2) calm);
    [vm_compute; reflexivity | vm_compute; discriminate].
Defined.

(** C5, where the claim fails: right after [go] a destination is present
    and no path is; after [stop] the path is present and no destination
    is. *)
Lemma destination_without_path :
  reachable (after calm (go_to 3 4) (new_SkeldjsPathfinder None))
  /\ ~ both_or_neither (after calm (go_to 3 4) (new_SkeldjsPathfinder None))
  /\ reachable (after calm op_stop paused_held)
  /\ ~ both_or_neither (after calm op_stop paused_held).
Proof.
  assert (Hreach : forall ops s, reachable s -> reachable (after_all calm ops s)).
  { induction ops as [| op ops IH]; intros s Hs; [exact Hs |].
    cbn [after_all]. apply IH, reachable_after, Hs. }
  split; [apply reachable_after, reachable_new |].
  split.
  { unfold both_or_neither. vm_compute.
    intros [[_ H] | [H _]]; [apply H; reflexivity | discriminate]. }
  split; [apply reachable_after, Hreach, reachable_new |].
  unfold both_or_neither. vm_compute.
  intros [[H _] | [_ H]]; [apply H; reflexivity | discriminate].
Qed.

(** C6, instance: the listeners reject the first step towards [(3, 4)]. *)
Lemma rejected_move_still_pops_witness :
  completion (guards strict bound_corner) = Normal true
  /\ _paused bound_corner = false
  /\ path (at_consumption strict bound_corner)
     = Some [Node.mk 3 1; Node.mk 3 4]
  /\ listeners strict (engine_move (at_xy 3 1)) = false
  /\ movements (effects (_ontick strict bound_corner)) = []
  /\ path (final (_ontick strict bound_corner)) = Some [Node.mk 3 4]
  /\ final (_ontick strict bound_corner)
     = final (_ontick (accepting strict) bound_corner).
Proof.
  split; [vm_compute; reflexivity |].
  split; [vm_compute; reflexivity |].
  split; [vm_compute; reflexivity |].
  split; [vm_compute; reflexivity |].
  pose proof (rejected_move_still_pops strict bound_corner 2%nat
                (Node.mk 3 1) [Node.mk 3 4]) as H.
  destruct H as [_ [_ [H3 [H4 H5]]]]; try (vm_compute; reflexivity).
  split; [exact H3 |]. split; [exact H4 | exact H5].
Defined.

(** C7, instances: paused with a path held and no recalculation due; and
    paused with the dirty flag set, where the recalculation notification is
    emitted all the same. *)
Lemma paused_tick_only_recalculates_witness :
  completion (guards calm paused_held) = Normal true
  /\ _paused paused_held = true
  /\ grid (at_recalculation calm paused_held) = Some 2%nat
  /\ completion (_ontick calm paused_held) = Normal tt
  /\ final (_ontick calm paused_held) = at_consumption calm paused_held
  /\ movements (effects (_ontick calm paused_held)) = []
  /\ destination (final (_ontick calm paused_held))
     = destination paused_held
  /\ _paused paused_dirty = true
  /\ emitted (effects (_ontick calm paused_dirty))
     = [engine_recalculate [at_xy 3 1; at_xy 3 4]]
  /\ path (final (_ontick calm paused_dirty))
     = Some [Node.mk 3 1; Node.mk 3 4]
  /\ emitted (effects (_ontick calm (set_paused false paused_held)))
     = emitted (effects (_ontick calm paused_held))
       ++ [engine_move (at_xy 3 1)].
Proof.
  split; [vm_compute; reflexivity |].
  split; [vm_compute; reflexivity |].
  split; [vm_compute; reflexivity |].
  pose proof (paused_tick_only_recalculates calm paused_held 2%nat) as H.
  destruct H as [H1 [_ [H3 [_ [_ [_ [H7 [H8 H9]]]]]]]];
    try (vm_compute; reflexivity).
  split; [exact H1 |]. split; [exact H3 |]. split; [exact H7 |].
  split; [exact H8 |].
  split; [vm_compute; reflexivity |].
  pose proof (paused_tick_only_recalculates calm paused_dirty 0%nat) as K.
  destruct K as [_ [_ [_ [K4 [K5 _]]]]]; try (vm_compute; reflexivity).
  split; [rewrite K4; vm_compute; reflexivity |].
  split; [rewrite K5; vm_compute; reflexivity |].
  rewrite H9. reflexivity.
Defined.


(** C8, instance: an acting tick without a destination. *)
Lemma idle_tick_frame_witness :
  (js_mod (increment (_tick idle)) MovementInterval <> 0
   \/ destination idle = None \/ get_position calm = None)
  /\ effects (_ontick calm idle) = []
  /\ final (_ontick calm idle)
     = set_grid (Some 0%nat) (set_tick 6 idle).
Proof.
  assert (H : js_mod (increment (_tick idle)) MovementInterval <> 0
              \/ destination idle = None \/ get_position calm = None)
    by (right; left; vm_compute; reflexivity).
  split; [exact H |].
  destruct (idle_tick_frame calm idle H) as [H1 H2].
  split; [exact H1 |]. rewrite H2. vm_compute. reflexivity.
Defined.

(** C8, where the claim fails: on an acting tick without a destination the
    handler reads the grid of the map and keeps it. *)
Lemma idle_tick_loads_grid :
  js_mod (increment (_tick idle)) MovementInterval = 0
  /\ destination idle = None
  /\ grid idle = None
  /\ grid (final (_ontick calm idle)) = Some 0%nat
  /\ final (_ontick calm idle) <> set_tick (increment (_tick idle)) idle.
Proof. vm_compute. repeat split. discriminate. Qed.

(** C9, where the claim fails: the data file of the map is missing, and the
    failed load leaves the handler as an exception. *)
Lemma missing_grid_file_throws :
  readFileSync bare 0 = None
  /\ completion (_ontick bare idle) = Throw
  /\ completion (_ontick bare idle) <> Normal tt.
Proof. vm_compute. repeat split. discriminate. Qed.

(** * The further properties on concrete runs *)

Import Walk.

(** X1, instance: no destination, eight ticks, one of them without the
    data file. *)
Lemma without_destination_ticks_are_idle_witness :
  destination idle = None
  /\ tick_effects (bare :: week) idle = []
  /\ destination (ticks_through (bare :: week) idle) = None
  /\ path (ticks_through (bare :: week) idle) = path idle.
Proof.
  assert (Hd : destination idle = None) by (vm_compute; reflexivity).
  destruct (without_destination_ticks_are_idle (bare :: week) idle Hd)
    as [H1 [H2 [H3 _]]].
  split; [exact Hd |]. split; [exact H1 |]. split; [exact H2 | exact H3].
Defined.

(** X2, instance: the first acting tick after [go]. *)
Lemma acting_tick_clears_dirty_witness :
  completion (guards calm bound_corner) = Normal true
  /\ _moved bound_corner = true
  /\ _moved (final (_ontick calm bound_corner)) = false.
Proof.
  assert (Hb : completion (guards calm bound_corner) = Normal true)
    by (vm_compute; reflexivity).
  split; [exact Hb |]. split; [vm_compute; reflexivity |].
  exact (acting_tick_clears_dirty calm bound_corner Hb).
Defined.

(** X3, instance: no period configured. *)
Lemma default_period_recalculates_every_acting_tick_witness :
  (recalculateEvery bound_corner = None
   \/ recalculateEvery bound_corner = Some 0)
  /\ completion (guards calm bound_corner) = Normal true
  /\ grid (at_recalculation calm bound_corner) = Some 0%nat
  /\ emitted (effects (_ontick calm bound_corner))
     = [engine_recalculate [at_xy 3 1; at_xy 3 4]; engine_move (at_xy 3 1)].
Proof.
  assert (Hc : recalculateEvery bound_corner = None
               \/ recalculateEvery bound_corner = Some 0)
    by (left; vm_compute; reflexivity).
  assert (Hb : completion (guards calm bound_corner) = Normal true)
    by (vm_compute; reflexivity).
  assert (Hg : grid (at_recalculation calm bound_corner) = Some 0%nat)
    by (vm_compute; reflexivity).
  split; [exact Hc |]. split; [exact Hb |]. split; [exact Hg |].
  destruct (default_period_recalculates_every_acting_tick
              calm bound_corner 0%nat Hc Hb Hg) as [H _].
  rewrite H. vm_compute. reflexivity.
Defined.

(** X6, instance: [go] to [(3, 4)], five ticks, then the acting tick. *)
Lemma go_is_searched_on_next_acting_tick_witness :
  ToBoolean (Vector2.x (at_xy 3 4)) = true
  /\ bound_corner
     = ticks_through (repeat calm 5)
         (final (go 8 calm (arg_vector (at_xy 3 4))
                   (new_SkeldjsPathfinder None)))
  /\ none_acts (repeat calm 5)
       (final (go 8 calm (arg_vector (at_xy 3 4))
                 (new_SkeldjsPathfinder None)))
  /\ completion (guards calm bound_corner) = Normal true
  /\ grid (at_recalculation calm bound_corner) = Some 0%nat
  /\ _paused bound_corner = false
  /\ destination (at_recalculation calm bound_corner) = Some (at_xy 3 4)
  /\ path (at_consumption calm bound_corner)
     = Some [Node.mk 3 1; Node.mk 3 4].
Proof.
  assert (Ht : ToBoolean (Vector2.x (at_xy 3 4)) = true)
    by (vm_compute; reflexivity).
  assert (Hs : bound_corner
               = ticks_through (repeat calm 5)
                   (final (go 8 calm (arg_vector (at_xy 3 4))
                             (new_SkeldjsPathfinder None))))
    by (vm_compute; reflexivity).
  assert (Hn : none_acts (repeat calm 5)
                 (final (go 8 calm (arg_vector (at_xy 3 4))
                           (new_SkeldjsPathfinder None))))
    by (vm_compute; repeat split; discriminate).
  assert (Hb : completion (guards calm bound_corner) = Normal true)
    by (vm_compute; reflexivity).
  assert (Hg : grid (at_recalculation calm bound_corner) = Some 0%nat)
    by (vm_compute; reflexivity).
  split; [exact Ht |]. split; [exact Hs |]. split; [exact Hn |].
  split; [exact Hb |]. split; [exact Hg |].
  destruct (go_is_searched_on_next_acting_tick 7 calm calm (repeat calm 5)
              (at_xy 3 4) (new_SkeldjsPathfinder None) bound_corner 0%nat
              Ht Hs Hn Hb Hg) as [H1 [H2 [_ H4]]].
  split; [exact H1 |]. split; [exact H2 |].
  rewrite H4. vm_compute. reflexivity.
Defined.

(** X7, instance: the followed [friend] reports a move to [(3, 4)]. *)
Lemma followed_move_is_searched_on_next_acting_tick_witness :
  is_following tracker friend = true
  /\ none_acts (repeat calm 5)
       (final (_handleMove friend (at_xy 3 4) tracker))
  /\ completion (guards calm chasing) = Normal true
  /\ grid (at_recalculation calm chasing) = Some 0%nat
  /\ effects (_handleMove friend (at_xy 3 4) tracker) = []
  /\ destination (at_recalculation calm chasing) = Some (at_xy 3 4)
  /\ path (at_consumption calm chasing) = Some [Node.mk 3 1; Node.mk 3 4].
Proof.
  assert (Hf : is_following tracker friend = true)
    by (vm_compute; reflexivity).
  assert (Hn : none_acts (repeat calm 5)
                 (final (_handleMove friend (at_xy 3 4) tracker)))
    by (vm_compute; repeat split; discriminate).
  assert (Hb : completion (guards calm chasing) = Normal true)
    by (vm_compute; reflexivity).
  assert (Hg : grid (at_recalculation calm chasing) = Some 0%nat)
    by (vm_compute; reflexivity).
  split; [exact Hf |]. split; [exact Hn |]. split; [exact Hb |].
  split; [exact Hg |].
  destruct (followed_move_is_searched_on_next_acting_tick friend (at_xy 3 4)
              calm (repeat calm 5) tracker chasing 0%nat
              Hf eq_refl Hn Hb Hg) as [H1 [H2 [_ H4]]].
  split; [exact H1 |]. split; [exact H2 |].
  rewrite H4. vm_compute. reflexivity.
Defined.

(** X8, instance: following [friend], then reports from [friend] and from
    the player itself. *)
Lemma follow_then_move_reports_witness :
  resolve calm (arg_resolvable (by_player friend)) = Some friend
  /\ spawned friend = true
  /\ destination
       (final (_handleMove friend (at_xy 3 4)
                 (final (follow calm (by_player friend)
                           (new_SkeldjsPathfinder None)))))
     = Some (at_xy 3 4)
  /\ destination
       (final (_handleMove (Field.player_at here) (at_xy 3 4)
                 (final (follow calm (by_player friend)
                           (new_SkeldjsPathfinder None)))))
     = None.
Proof.
  assert (Hr : resolve calm (arg_resolvable (by_player friend)) = Some friend)
    by (vm_compute; reflexivity).
  assert (Hs : spawned friend = true) by reflexivity.
  split; [exact Hr |]. split; [exact Hs |].
  split.
  - destruct (follow_then_move_reports calm (by_player friend) friend friend
                (at_xy 3 4) (new_SkeldjsPathfinder None) Hr Hs) as [_ H].
    rewrite H. vm_compute. reflexivity.
  - destruct (follow_then_move_reports calm (by_player friend) friend
                (Field.player_at here) (at_xy 3 4)
                (new_SkeldjsPathfinder None) Hr Hs) as [_ H].
    rewrite H. vm_compute. reflexivity.
Defined.

(** X9, instance: a client id the room does not know. *)
Lemma follow_unavailable_keeps_following_witness :
  resolve calm (arg_resolvable (by_clientid 9)) = None
  /\ following (final (follow calm (by_clientid 9) tracker)) = Some friend.
Proof.
  assert (Hr : resolve calm (arg_resolvable (by_clientid 9)) = None)
    by (vm_compute; reflexivity).
  split; [exact Hr |].
  rewrite (follow_unavailable_keeps_following calm (by_clientid 9) tracker
             (or_introl Hr)).
  vm_compute. reflexivity.
Defined.

(** X11, instance: [stop()] while following [friend], then a report. *)
Lemma stop_keeps_following_witness :
  is_following chasing friend = true
  /\ emitted (effects (stop calm chasing)) = [pathfinding_stop false]
  /\ destination (final (stop calm chasing)) = None
  /\ destination (final (_handleMove friend (at_xy 5 5)
                           (final (stop calm chasing))))
     = Some (at_xy 5 5).
Proof.
  assert (Hf : is_following chasing friend = true)
    by (vm_compute; reflexivity).
  destruct (stop_keeps_following calm friend (at_xy 5 5) chasing Hf)
    as [_ [H2 [H3 H4]]].
  split; [exact Hf |]. split; [exact H2 |].
  split; [rewrite H3 | rewrite H4]; reflexivity.
Defined.

(** X12, instance: pause and resume before the first acting tick. *)
Lemma pause_then_start_round_trip_witness :
  _paused bound_corner = false
  /\ final (start strict (final (pause calm bound_corner))) = bound_corner
  /\ _ontick calm (final (start strict (final (pause calm bound_corner))))
     = _ontick calm bound_corner.
Proof.
  assert (Hp : _paused bound_corner = false) by (vm_compute; reflexivity).
  destruct (pause_then_start_round_trip calm strict calm bound_corner Hp)
    as [H1 [_ H3]].
  split; [exact Hp |]. split; [exact H1 | exact H3].
Defined.

(** X13, instances: a new pathfinder, whose grid is not loaded; and one
    with the grid loaded, bound for [(5, 5)]. *)
Lemma recalculate_needs_grid_witness :
  grid (new_SkeldjsPathfinder None) = None
  /\ completion (recalculate calm (new_SkeldjsPathfinder None)) = Throw
  /\ grid dirty_loaded = Some 2%nat
  /\ nearest_cell (Grid_reset 2%nat) (get_position calm) <> None
  /\ nearest_cell (Grid_reset 2%nat) (destination dirty_loaded) <> None
  /\ completion (recalculate calm dirty_loaded) = Normal tt
  /\ path (final (recalculate calm dirty_loaded))
     = Some (fst (search calm 2%nat dirty_loaded))
  /\ _moved (final (recalculate calm dirty_loaded)) = true.
Proof.
  assert (H0 : grid (new_SkeldjsPathfinder None) = None) by reflexivity.
  assert (H1 : grid dirty_loaded = Some 2%nat) by (vm_compute; reflexivity).
  assert (H2 : nearest_cell (Grid_reset 2%nat) (get_position calm) <> None)
    by (vm_compute; discriminate).
  assert (H3 : nearest_cell (Grid_reset 2%nat) (destination dirty_loaded)
               <> None) by (vm_compute; discriminate).
  split; [exact H0 |].
  split.
  { rewrite (proj1 (recalculate_needs_grid calm (new_SkeldjsPathfinder None))
               H0). reflexivity. }
  split; [exact H1 |]. split; [exact H2 |]. split; [exact H3 |].
  destruct (proj2 (recalculate_needs_grid calm dirty_loaded) _ H1 H2 H3)
    as [K1 [K2 [_ [_ [_ K6]]]]].
  split; [exact K1 |]. split; [exact K2 |].
  rewrite K6. vm_compute. reflexivity.
Defined.

(** X14, instance: the field is map [0]. *)
Lemma vent_ignores_map_zero_witness :
  (get_map calm = None \/ get_map calm = Some 0)
  /\ vent 8 calm 3 bound_corner
     = {| completion := Normal tt; final := bound_corner; effects := [] |}.
Proof.
  assert (H : get_map calm = None \/ get_map calm = Some 0)
    by (right; vm_compute; reflexivity).
  split; [exact H |].
  exact (vent_ignores_map_zero 8 calm 3 bound_corner H).
Defined.

(** X15, instance: vent [3] of the station. *)
Lemma vent_goes_to_vent_position_witness :
  get_map (Station.world 1) = Some 1
  /\ 1 <> 0
  /\ @MapVentData Station.externals 1 3 = Some (Vector2.mk 9 2)
  /\ ToBoolean 9%float = true
  /\ destination (final (vent 8 (Station.world 1) 3 Station.fresh))
     = Some (Vector2.mk 9 2)
  /\ emitted (effects (vent 8 (Station.world 1) 3 Station.fresh))
     = [pathfinding_start (Some (Vector2.mk 9 2))].
Proof.
  assert (Hm : get_map (Station.world 1) = Some 1) by reflexivity.
  assert (Hz : 1 <> 0) by lia.
  assert (Hv : @MapVentData Station.externals 1 3 = Some (Vector2.mk 9 2))
    by reflexivity.
  assert (Ht : ToBoolean (Vector2.x (Vector2.mk 9 2)) = true)
    by (vm_compute; reflexivity).
  split; [exact Hm |]. split; [exact Hz |]. split; [exact Hv |].
  split; [exact Ht |].
  rewrite (vent_goes_to_vent_position 7 (Station.world 1) 1 3
             (Vector2.mk 9 2) Station.fresh Hm Hz Hv Ht).
  split; reflexivity.
Defined.

(** X16, instance: the station has no vent [4]. *)
Lemma vent_unknown_throws_witness :
  get_map (Station.world 1) = Some 1
  /\ 1 <> 0
  /\ @MapVentData Station.externals 1 4 = None
  /\ vent 8 (Station.world 1) 4 Station.fresh
     = {| completion := Throw; final := Station.fresh; effects := [] |}.
Proof.
  assert (Hm : get_map (Station.world 1) = Some 1) by reflexivity.
  assert (Hz : 1 <> 0) by lia.
  assert (Hv : @MapVentData Station.externals 1 4 = None) by reflexivity.
  split; [exact Hm |]. split; [exact Hz |]. split; [exact Hv |].
  exact (vent_unknown_throws 8 (Station.world 1) 1 4 Station.fresh Hm Hz Hv).
Defined.

(** X17, instance: [go] with the client id of the crewmate at [(4, 2)]. *)
Lemma go_to_player_position_witness :
  resolve (Station.world 1) (arg_resolvable (by_clientid 2))
  = Some Station.crewmate
  /\ spawned Station.crewmate = true
  /\ ToBoolean 4%float = true
  /\ destination (final (go 8 (Station.world 1)
                           (arg_resolvable (by_clientid 2)) Station.fresh))
     = Some (Vector2.mk 4 2)
  /\ _moved (final (go 8 (Station.world 1)
                       (arg_resolvable (by_clientid 2)) Station.fresh))
     = true.
Proof.
  assert (Hr : resolve (Station.world 1) (arg_resolvable (by_clientid 2))
               = Some Station.crewmate) by reflexivity.
  assert (Hs : spawned Station.crewmate = true) by reflexivity.
  assert (Ht : ToBoolean (Vector2.x (Vector2.mk 4 2)) = true)
    by (vm_compute; reflexivity).
  split; [exact Hr |]. split; [exact Hs |]. split; [exact Ht |].
  rewrite (go_to_player_position 6 (Station.world 1) (by_clientid 2)
             Station.crewmate {| position := Some (Vector2.mk 4 2) |}
             (Vector2.mk 4 2) Station.fresh Hr Hs eq_refl eq_refl Ht).
  split; reflexivity.
Defined.

(** X18, instance: [go] with the client id of a player that has not
    spawned. *)
Lemma go_to_unavailable_player_witness :
  resolve (Station.world 1) (arg_resolvable (by_clientid 3))
  = Some Station.ghost
  /\ spawned Station.ghost = false
  /\ go 8 (Station.world 1) (arg_resolvable (by_clientid 3)) Station.fresh
     = {| completion := Normal None; final := Station.fresh;
          effects := [] |}.
Proof.
  assert (Hr : resolve (Station.world 1) (arg_resolvable (by_clientid 3))
               = Some Station.ghost) by reflexivity.
  assert (Hs : spawned Station.ghost = false) by reflexivity.
  split; [exact Hr |]. split; [exact Hs |].
  apply (go_to_unavailable_player 7 (Station.world 1) (by_clientid 3)
           Station.fresh).
  right. exists Station.ghost. split; [exact Hr | exact Hs].
Defined.

(** X19, instance: with the grid loaded, the data file may go missing. *)
Lemma loaded_grid_stays_loaded_witness :
  grid dirty_loaded <> None
  /\ grid (after_each errands dirty_loaded) <> None
  /\ completion (_ontick bare (after_each errands dirty_loaded)) = Normal tt.
Proof.
  assert (Hg : grid dirty_loaded <> None) by (vm_compute; discriminate).
  destruct (loaded_grid_stays_loaded errands bare dirty_loaded Hg)
    as [H1 [_ H3]].
  split; [exact Hg |]. split; [exact H1 | exact H3].
Defined.

(** X21, instance: the fourth tick of a new pathfinder. *)
Lemma new_pathfinder_cadence_witness :
  Z.of_nat (length (repeat bare 3)) < 2 ^ 53
  /\ js_mod (Z.of_nat (length (repeat bare 3)) + 1) MovementInterval <> 0
  /\ _tick (ticks_through (repeat bare 3) (new_SkeldjsPathfinder None)) = 3
  /\ effects (_ontick bare
                (ticks_through (repeat bare 3) (new_SkeldjsPathfinder None)))
     = [].
Proof.
  assert (Hb : Z.of_nat (length (repeat bare 3)) < 2 ^ 53)
    by (vm_compute; reflexivity).
  assert (Hc : js_mod (Z.of_nat (length (repeat bare 3)) + 1)
                      MovementInterval <> 0)
    by (vm_compute; discriminate).
  destruct (new_pathfinder_cadence None (repeat bare 3) bare Hb Hc)
    as [H1 H2].
  split; [exact Hb |]. split; [exact Hc |].
  split; [exact H1 | rewrite H2; reflexivity].
Defined.

(** X22, instance: paused with a path held, for seven ticks. *)
Lemma paused_pathfinder_never_moves_witness :
  _paused paused_held = true
  /\ movements (tick_effects week paused_held) = []
  /\ filter is_move (emitted (tick_effects week paused_held)) = []
  /\ destination (ticks_through week paused_held) = Some (at_xy 3 4).
Proof.
  assert (Hp : _paused paused_held = true) by (vm_compute; reflexivity).
  destruct (paused_pathfinder_never_moves week paused_held Hp)
    as [H1 [H2 [_ [_ H5]]]].
  split; [exact Hp |]. split; [exact H1 |]. split; [exact H2 |].
  rewrite H5. vm_compute. reflexivity.
Defined.

(** X23, instance: two cells held; of ticks 12 to 18 the first and the last
    act. *)
Lemma held_path_is_walked_in_order_witness :
  _paused walker = false
  /\ grid walker = Some 2%nat
  /\ path walker = Some [Node.mk 3 1; Node.mk 3 4]
  /\ undisturbed week walker
  /\ acted week walker = 2%nat
  /\ path (ticks_through week walker) = Some []
  /\ filter is_move (emitted (tick_effects week walker))
     = [engine_move (at_xy 3 1); engine_move (at_xy 3 4)]
  /\ filter is_stop_or_end (emitted (tick_effects week walker))
     = [pathfinding_stop true; pathfinding_end]
  /\ destination (ticks_through week walker) = None.
Proof.
  assert (Hpa : _paused walker = false) by (vm_compute; reflexivity).
  assert (Hg : grid walker = Some 2%nat) by (vm_compute; reflexivity).
  assert (Hp : path walker = Some [Node.mk 3 1; Node.mk 3 4])
    by (vm_compute; reflexivity).
  assert (Hu : undisturbed week walker)
    by (vm_compute; repeat split; intros; reflexivity || discriminate).
  assert (Ha : acted week walker = 2%nat) by (vm_compute; reflexivity).
  assert (Hk : (acted week walker <= length [Node.mk 3 1; Node.mk 3 4])%nat)
    by (rewrite Ha; cbn; lia).
  destruct (held_path_is_walked_in_order week walker 2%nat
              [Node.mk 3 1; Node.mk 3 4] Hpa Hg Hp Hu Hk)
    as [H1 [H2 [H3 H4]]].
  rewrite Ha in H1, H2, H3, H4.
  split; [exact Hpa |]. split; [exact Hg |]. split; [exact Hp |].
  split; [exact Hu |]. split; [exact Ha |].
  split; [exact H1 |]. split; [exact H2 |]. split; [exact H3 | exact H4].
Defined.
